(** * AIApiConnect: the chat relay of [registerRoutes] and the chat page

    A shallow embedding of the Express routes registered by
    [registerRoutes] (server routes file) and of [sendMessageMutation] in
    [client/src/pages/chat.tsx], with the properties of the chat turn
    stated and proved over it.

    JavaScript effects are written out: a handler is a function of the
    world (the transcript store and the requests sent to the providers)
    that returns the new world and either a value or the thrown
    exception.  A [throw] keeps the world it was raised in: what was
    stored before the throw stays stored. *)

From Stdlib Require Import Ascii.
From stdpp Require Import gmap strings list.

(** ** Strings as JavaScript uses them *)

Module Js.

(** A string is the UTF-8 encoding of the JavaScript string it stands
    for.  [String.prototype.trim] removes the code points of [WhiteSpace]
    and [LineTerminator] from both ends: TAB, LF, VT, FF, CR and SPACE,
    which are one byte each; U+00A0, which is two bytes; and U+1680,
    U+2000 to U+200A, U+2028, U+2029, U+202F, U+205F, U+3000 and U+FEFF,
    which are three. *)
Definition is_whitespace (c : ascii) : bool :=
  match nat_of_ascii c with
  | 9 | 10 | 11 | 12 | 13 | 32 => true
  | _ => false
  end.

Definition is_whitespace2 (a b : ascii) : bool :=
  Ascii.eqb a "194" && Ascii.eqb b "160".

Definition is_whitespace3 (a b c : ascii) : bool :=
  (Ascii.eqb a "225" && Ascii.eqb b "154" && Ascii.eqb c "128")
  || (Ascii.eqb a "226" && Ascii.eqb b "128"
      && ((N.leb 128 (N_of_ascii c) && N.leb (N_of_ascii c) 138)
          || Ascii.eqb c "168" || Ascii.eqb c "169" || Ascii.eqb c "175"))
  || (Ascii.eqb a "226" && Ascii.eqb b "129" && Ascii.eqb c "159")
  || (Ascii.eqb a "227" && Ascii.eqb b "128" && Ascii.eqb c "128")
  || (Ascii.eqb a "239" && Ascii.eqb b "187" && Ascii.eqb c "191").

(** One white space code point taken off the front of a string; with
    [backwards] the string is read from its end, so the bytes of a code
    point come last byte first. *)
Definition strip (backwards : bool) (s : string) : option string :=
  match s with
  | String a rest1 =>
      if is_whitespace a then Some rest1
      else match rest1 with
           | String b rest2 =>
               if (if backwards then is_whitespace2 b a else is_whitespace2 a b)
               then Some rest2
               else match rest2 with
                    | String c rest3 =>
                        if (if backwards then is_whitespace3 c b a
                            else is_whitespace3 a b c)
                        then Some rest3 else None
                    | EmptyString => None
                    end
           | EmptyString => None
           end
  | EmptyString => None
  end.

(** All white space code points taken off the front. *)
Fixpoint trim_from (backwards : bool) (s : string) : string :=
  match s with
  | String a rest1 =>
      if is_whitespace a then trim_from backwards rest1
      else match rest1 with
           | String b rest2 =>
               if (if backwards then is_whitespace2 b a else is_whitespace2 a b)
               then trim_from backwards rest2
               else match rest2 with
                    | String c rest3 =>
                        if (if backwards then is_whitespace3 c b a
                            else is_whitespace3 a b c)
                        then trim_from backwards rest3 else s
                    | EmptyString => s
                    end
           | EmptyString => s
           end
  | EmptyString => EmptyString
  end.

Definition trimStart (s : string) : string := trim_from false s.

Definition trimEnd (s : string) : string :=
  String.rev (trim_from true (String.rev s)).

Definition trim (s : string) : string := trimEnd (trimStart s).

(** [!s] on a string: only the empty string is falsy. *)
Definition falsy (s : string) : bool :=
  match s with
  | EmptyString => true
  | String _ _ => false
  end.

(** [v || d] where [v] is a string, [undefined] or [null]
    ([None] stands for the two last). *)
Definition or_else (v : option string) (d : string) : string :=
  match v with
  | Some s => if falsy s then d else s
  | None => d
  end.

(** A template literal's rendering of a value that may be [undefined]. *)
Definition interpolate (v : option string) : string :=
  match v with
  | Some s => s
  | None => "undefined"
  end.

(** What a [throw] carries, as far as the [catch] block of a handler
    tells the cases apart: a [ZodError], any other instance of [Error]
    (with its [name] and [message]), or a value that is no [Error]. *)
Inductive Exn : Type :=
| ZodError (issues : list string)
| Error (name message : string)
| Thrown (value : string).

End Js.

Import Js.

(** ** Data model *)

(** Modelled from the spec: the types [Message] and [InsertMessage] of
    [@shared/schema] are not among the sources.  Section 3 of the
    specification gives a message its fields: an identifier, the session,
    a role that is [user] or [assistant], the content, a provider or null,
    and a timestamp. *)
Inductive Role : Type := user | assistant.

#[global] Instance Role_eq_dec : EqDecision Role.
Proof. solve_decision. Defined.

Record Message : Type := mkMessage {
  id : nat;
  sessionId : string;
  role : Role;
  content : string;
  provider : option string;
  timestamp : nat
}.

#[global] Instance Message_eq_dec : EqDecision Message.
Proof. solve_decision. Defined.

(** The argument of [storage.createMessage]. *)
Record InsertMessage : Type := mkInsert {
  ins_content : string;
  ins_role : Role;
  ins_provider : option string;
  ins_sessionId : string
}.

(** ** The transcript store *)

(** Modelled from the spec: the module [./storage] ([storage.createMessage],
    [storage.getMessages], [storage.clearMessages]) is not among the
    sources.  Section 4.1 of the specification gives its contract: the
    store owns the ordered message history keyed by session identifier;
    [append] creates and stores a new message with a fresh unique id and
    the current timestamp and fails with [ValidationError] if the content
    is empty after trimming; [read] returns the messages of the session in
    creation order, the empty sequence for an unknown session; [clear]
    removes all messages of the session.  Ids and timestamps are drawn
    from one creation counter. *)
Record Storage : Type := mkStorage {
  transcripts : gmap string (list Message);
  created : nat
}.

Definition empty_storage : Storage :=
  {| transcripts := ∅; created := 0 |}.

(** Modelled from the spec: [storage.getMessages], the [read] of section
    4.1: the messages of the session in creation order, none for a session
    the store does not know. *)
Definition read (st : Storage) (sid : string) : list Message :=
  default [] (transcripts st !! sid).

Definition build_message (st : Storage) (ins : InsertMessage) : Message :=
  {| id := created st;
     sessionId := ins_sessionId ins;
     role := ins_role ins;
     content := ins_content ins;
     provider := ins_provider ins;
     timestamp := created st |}.

(** Modelled from the spec: [storage.createMessage], the [append] of
    section 4.1: it fails with [ValidationError] if the content is empty
    after trimming, and otherwise stores the new message last in its
    session and returns it. *)
Definition append (st : Storage) (ins : InsertMessage) : Exn + (Message * Storage) :=
  if falsy (trim (ins_content ins)) then
    inl (Error "ValidationError" "Message content must not be empty")
  else
    let m := build_message st ins in
    inr (m, {| transcripts :=
                 <[ins_sessionId ins := read st (ins_sessionId ins) ++ [m]]> (transcripts st);
               created := S (created st) |}).

(** Modelled from the spec: [storage.clearMessages], the [clear] of
    section 4.1: all messages of the session are removed. *)
Definition clear (st : Storage) (sid : string) : Storage :=
  {| transcripts := delete sid (transcripts st); created := created st |}.

(** ** What goes out to the providers and what comes back *)

(** One element of [conversationHistory]: [{ role, content }]. *)
Record ChatMessage : Type := mkChat {
  chat_role : Role;
  chat_content : string
}.

(** The object both providers receive: [{ model, messages, max_tokens }]
    (for DeepSeek it is passed through [JSON.stringify]). *)
Record CompletionParams : Type := mkParams {
  model : string;
  messages : list ChatMessage;
  max_tokens : nat
}.

Record FetchInit : Type := mkInit {
  init_method : string;
  init_headers : list (string * string);
  init_body : CompletionParams
}.

(** A request that leaves the server for a provider. *)
Inductive ProviderCall : Type :=
| OpenAICreate (apiKey : option string) (params : CompletionParams)
| Fetch (url : string) (init : FetchInit).

Definition call_params (c : ProviderCall) : CompletionParams :=
  match c with
  | OpenAICreate _ params => params
  | Fetch _ init => init_body init
  end.

(** The part of a completion the handler looks at.  [choices = None] is
    a body without a [choices] property (indexing it throws);
    [choice_message = None] and [reply_content = None] are properties that
    are [undefined] or [null]. *)
Record ReplyMessage : Type := mkReply { reply_content : option string }.
Record Choice : Type := mkChoice { choice_message : option ReplyMessage }.
Record Completion : Type := mkCompletion { choices : option (list Choice) }.

(** The [Response] of [fetch]: [ok], [statusText] and what [json()]
    gives, which throws on a body that is not JSON. *)
Record FetchResponse : Type := mkFetchResponse {
  ok : bool;
  statusText : string;
  json : Exn + Completion
}.

(** The outside world of the server: the OpenAI client library and
    [fetch].  Each may throw. *)
Record Env : Type := mkEnv {
  openai_new : option string → option Exn;
  openai_create : option string → CompletionParams → Exn + Completion;
  fetch : string → FetchInit → Exn + FetchResponse
}.

(** ** Effects *)

Record World : Type := mkWorld {
  storage : Storage;
  outbox : list ProviderCall
}.

Definition Eff (A : Type) : Type := World → World * (Exn + A).

Definition ret {A} (a : A) : Eff A := λ w, (w, inr a).

Definition throw {A} (e : Exn) : Eff A := λ w, (w, inl e).

Definition bind {A B} (m : Eff A) (k : A → Eff B) : Eff B :=
  λ w, match m w with
       | (w', inl e) => (w', inl e)
       | (w', inr a) => k a w'
       end.

Definition try_catch {A} (m : Eff A) (handler : Exn → Eff A) : Eff A :=
  λ w, match m w with
       | (w', inl e) => handler e w'
       | (w', inr a) => (w', inr a)
       end.

(** [await] of a result that is already known. *)
Definition await {A} (r : Exn + A) : Eff A :=
  match r with
  | inl e => throw e
  | inr a => ret a
  end.

Notation "'let*' x := m 'in' k" := (bind m (λ x, k))
  (at level 10, x name, m at level 100, k at level 200, only parsing).
Notation "m ;;; k" := (bind m (λ _, k))
  (at level 100, k at level 200, right associativity, only parsing).

Definition createMessage (ins : InsertMessage) : Eff Message :=
  λ w, match append (storage w) ins with
       | inl e => (w, inl e)
       | inr (m, st) => ({| storage := st; outbox := outbox w |}, inr m)
       end.

Definition getMessages (sid : string) : Eff (list Message) :=
  λ w, (w, inr (read (storage w) sid)).

Definition clearMessages (sid : string) : Eff unit :=
  λ w, ({| storage := clear (storage w) sid; outbox := outbox w |}, inr tt).

(** Sending a request to a provider records it and yields what the
    provider answers. *)
Definition send {A} (c : ProviderCall) (answer : Exn + A) : Eff A :=
  λ w, ({| storage := storage w; outbox := outbox w ++ [c] |}, answer).

(** ** Requests and replies of the HTTP layer *)

(** [req.body], as far as the routes and the chat page use it: an object
    whose properties are strings; [None] is a property that is absent. *)
Record Body : Type := mkBody {
  body_message : option string;
  body_provider : option string;
  body_sessionId : option string;
  body_apiKey : option string;
  body_content : option string
}.

(** [ChatRequest], the type of a parsed body. *)
Record ChatRequest : Type := mkChatRequest {
  req_message : string;
  req_provider : string;
  req_sessionId : string;
  req_apiKey : option string
}.

(** The values of [type Provider] in [chat.tsx], which the chat page
    passes as the [provider] of a [ChatRequest]. *)
Definition provider_enum : list string := ["openai"; "deepseek"; "puter"].

Definition check_message (v : option string) : list string :=
  match v with
  | Some m => if falsy m then ["message"] else []
  | None => ["message"]
  end.

Definition check_provider (v : option string) : list string :=
  match v with
  | Some p => if bool_decide (p ∈ provider_enum) then [] else ["provider"]
  | None => ["provider"]
  end.

Definition check_sessionId (v : option string) : list string :=
  match v with
  | Some _ => []
  | None => ["sessionId"]
  end.

(** The providers that need a credential: all but "puter", which the
    page sends without a key ([chat.tsx], [handleSendMessage]). *)
Definition needs_credential (provider : option string) : bool :=
  negb (bool_decide (provider = Some "puter")).

Definition check_apiKey (provider v : option string) : list string :=
  match v with
  | Some _ => []
  | None => if needs_credential provider then ["apiKey"] else []
  end.

(** Modelled from the spec: [chatRequestSchema] of [@shared/schema] is
    not among the sources.  Section 6 of the specification gives the
    validated request object: [message] a non-empty string, [provider] a
    member of the enum, [sessionId] a string, [apiKey] a string that is
    optional for the providers that need no credential.  A body that does
    not fit is refused with a [ZodError] that lists the fields at fault. *)
Definition chatRequestSchema_parse (b : Body) : Exn + ChatRequest :=
  match body_message b, body_provider b, body_sessionId b,
        check_message (body_message b) ++ check_provider (body_provider b)
          ++ check_sessionId (body_sessionId b)
          ++ check_apiKey (body_provider b) (body_apiKey b) with
  | Some m, Some p, Some sid, [] =>
      inr {| req_message := m; req_provider := p; req_sessionId := sid;
             req_apiKey := body_apiKey b |}
  | _, _, _, issues => inl (ZodError issues)
  end.

Inductive Payload : Type :=
| MessagesJson (history : list Message)
| ChatJson (message : Message)
| SuccessJson
| ErrorJson (error : string) (details : option (list string)).

Record Response : Type := mkResponse {
  status : nat;
  payload : Payload
}.

(** [res.json(v)] answers with status 200, [res.status(n).json(v)] with [n]. *)
Definition res_json (p : Payload) : Response := {| status := 200; payload := p |}.
Definition res_status_json (n : nat) (p : Payload) : Response :=
  {| status := n; payload := p |}.

(** ** The routes of [registerRoutes] *)

Definition sentinel : string := "No response received".

(** [choices[0]?.message?.content] on an array [choices]. *)
Definition first_content (cs : list Choice) : option string :=
  match head cs with
  | Some c =>
      match choice_message c with
      | Some m => reply_content m
      | None => None
      end
  | None => None
  end.

(** [data.choices[0]?.message?.content || "No response received"]:
    indexing a missing [choices] throws a [TypeError]. *)
Definition reply_text (data : Completion) : Exn + string :=
  match choices data with
  | None => inl (Error "TypeError" "Cannot read properties of undefined (reading '0')")
  | Some cs => inr (or_else (first_content cs) sentinel)
  end.

Definition conversationHistory (history : list Message) : list ChatMessage :=
  map (λ msg, {| chat_role := role msg; chat_content := content msg |}) history.

Definition deepseek_url : string := "https://api.deepseek.com/chat/completions".

Definition deepseek_init (apiKey : option string) (history : list ChatMessage) : FetchInit :=
  {| init_method := "POST";
     init_headers := [("Content-Type", "application/json");
                      ("Authorization", "Bearer " +:+ interpolate apiKey)];
     init_body := {| model := "deepseek-chat"; messages := history; max_tokens := 1000 |} |}.

Definition openai_params (history : list ChatMessage) : CompletionParams :=
  {| model := "gpt-5"; messages := history; max_tokens := 1000 |}.

(** The [catch] block of [POST /api/chat]. *)
Definition chat_catch (error : Exn) : Response :=
  match error with
  | ZodError issues =>
      res_status_json 400 (ErrorJson "Invalid request data" (Some issues))
  | Error _ message => res_status_json 500 (ErrorJson message None)
  | Thrown _ => res_status_json 500 (ErrorJson "Failed to process chat message" None)
  end.

Section Routes.

Variable env : Env.

(** The two branches of the provider chain, up to [aiResponse]. *)
Definition ask_openai (sid : string) (apiKey : option string) : Eff string :=
  await (match openai_new env apiKey with Some e => inl e | None => inr tt end) ;;;
  let* history := getMessages sid in
  let params := openai_params (conversationHistory history) in
  let* completion :=
    send (OpenAICreate apiKey params) (openai_create env apiKey params) in
  await (reply_text completion).

Definition ask_deepseek (sid : string) (apiKey : option string) : Eff string :=
  let* history := getMessages sid in
  let init := deepseek_init apiKey (conversationHistory history) in
  let* response := send (Fetch deepseek_url init) (fetch env deepseek_url init) in
  (if ok response then ret tt
   else throw (Error "Error" ("DeepSeek API error: " +:+ statusText response))) ;;;
  let* data := await (json response) in
  await (reply_text data).

(** The provider chain: [if (provider === "openai") ... else if
    (provider === "deepseek") ... else throw]. *)
Definition complete (provider sid : string) (apiKey : option string) : Eff string :=
  if decide (provider = "openai") then ask_openai sid apiKey
  else if decide (provider = "deepseek") then ask_deepseek sid apiKey
  else throw (Error "Error" "Invalid provider").

(** The [try] block of [POST /api/chat]. *)
Definition chat_try (body : Body) : Eff Response :=
  let* request := await (chatRequestSchema_parse body) in
  let provider := req_provider request in
  let sid := req_sessionId request in
  let apiKey := req_apiKey request in
  createMessage {| ins_content := req_message request; ins_role := user;
                   ins_provider := Some provider; ins_sessionId := sid |} ;;;
  let* aiResponse := complete provider sid apiKey in
  let* aiMessage :=
    createMessage {| ins_content := aiResponse; ins_role := assistant;
                     ins_provider := Some provider; ins_sessionId := sid |} in
  ret (res_json (ChatJson aiMessage)).

(** [POST /api/chat] *)
Definition post_chat (body : Body) : Eff Response :=
  try_catch (chat_try body) (λ error, ret (chat_catch error)).

(** [GET /api/messages/:sessionId] *)
Definition get_messages (sid : string) : Eff Response :=
  try_catch
    (let* history := getMessages sid in ret (res_json (MessagesJson history)))
    (λ _, ret (res_status_json 500 (ErrorJson "Failed to fetch messages" None))).

(** [DELETE /api/messages/:sessionId] *)
Definition delete_messages (sid : string) : Eff Response :=
  try_catch
    (clearMessages sid ;;; ret (res_json SuccessJson))
    (λ _, ret (res_status_json 500 (ErrorJson "Failed to clear messages" None))).

End Routes.

(** ** Routing *)

(** The methods the page and the routes use, and [HEAD], which a route
    installed with [app.get] serves as well. *)
Inductive Method : Type := GET | HEAD | POST | DELETE.

#[global] Instance Method_eq_dec : EqDecision Method.
Proof. solve_decision. Defined.

Record Request : Type := mkRequest {
  method : Method;
  url : string;
  body : Body
}.

(** A path pattern of Express, segment by segment: a literal or a
    [:name] parameter.  With the default settings of Express a literal is
    compared without regard to the case of its letters, a parameter stands
    for one segment that is not empty, and one slash at the end of the path
    is overlooked. *)
Inductive Segment : Type :=
| Lit (s : string)
| Param (name : string).

Definition lower (c : ascii) : ascii :=
  let n := nat_of_ascii c in
  if Nat.leb 65 n && Nat.leb n 90 then ascii_of_nat (n + 32) else c.

Fixpoint lowercase (s : string) : string :=
  match s with
  | EmptyString => EmptyString
  | String c rest => String (lower c) (lowercase rest)
  end.

(** The path of a request target: what stands before the first [?] or
    [#]. *)
Fixpoint pathname (s : string) : string :=
  match s with
  | EmptyString => EmptyString
  | String c rest =>
      if Ascii.eqb c "?" || Ascii.eqb c "#" then EmptyString
      else String c (pathname rest)
  end.

(** The pieces of a string between its slashes, empty pieces kept. *)
Fixpoint split_path (cur : string) (s : string) : list string :=
  match s with
  | EmptyString => [String.rev cur]
  | String c rest =>
      if Ascii.eqb c "/" then String.rev cur :: split_path EmptyString rest
      else split_path (String c cur) rest
  end.

(** A list of pieces without its last piece, if that one is empty. *)
Fixpoint drop_trailing_empty (pieces : list string) : list string :=
  match pieces with
  | [] => []
  | piece :: rest =>
      match rest with
      | [] => if falsy piece then [] else [piece]
      | _ :: _ => piece :: drop_trailing_empty rest
      end
  end.

(** The segments of the path of a request target: the pieces after the
    leading slash, one slash at the end overlooked.  A target that does not
    begin with a slash has none. *)
Definition segments (target : string) : option (list string) :=
  match pathname target with
  | String c rest =>
      if Ascii.eqb c "/" then Some (drop_trailing_empty (split_path EmptyString rest))
      else None
  | EmptyString => None
  end.

Fixpoint match_path (pattern : list Segment) (path : list string)
  : option (list (string * string)) :=
  match pattern, path with
  | [], [] => Some []
  | Lit s :: pattern', seg :: path' =>
      if decide (lowercase s = lowercase seg) then match_path pattern' path' else None
  | Param name :: pattern', seg :: path' =>
      if falsy seg then None
      else match match_path pattern' path' with
           | Some params => Some ((name, seg) :: params)
           | None => None
           end
  | _, _ => None
  end.

(** Whether a route installed for one method serves a request of
    another: [app.get] serves [HEAD] too. *)
Definition serves (installed requested : Method) : bool :=
  bool_decide (installed = requested)
  || (bool_decide (installed = GET) && bool_decide (requested = HEAD)).

(** [req.params[name]]; a name the pattern does not bind reads as
    [undefined].  Express hands the segment over percent-decoded; a segment
    without a percent sign is handed over as it stands. *)
Fixpoint param (name : string) (params : list (string * string)) : string :=
  match params with
  | [] => "undefined"
  | (k, v) :: rest => if decide (k = name) then v else param name rest
  end.

Record Route : Type := mkRoute {
  route_method : Method;
  route_pattern : list Segment;
  route_handler : list (string * string) → Body → Eff Response
}.

(** The routes [registerRoutes] installs on the app, in order. *)
Definition registerRoutes (env : Env) : list Route :=
  [ {| route_method := GET;
       route_pattern := [Lit "api"; Lit "messages"; Param "sessionId"];
       route_handler := λ params _, get_messages (param "sessionId" params) |};
    {| route_method := POST;
       route_pattern := [Lit "api"; Lit "chat"];
       route_handler := λ _ body, post_chat env body |};
    {| route_method := DELETE;
       route_pattern := [Lit "api"; Lit "messages"; Param "sessionId"];
       route_handler := λ params _, delete_messages (param "sessionId" params) |} ].

(** The first route whose method and pattern fit the request. *)
Fixpoint dispatch (routes : list Route) (r : Request) : option (Eff Response) :=
  match routes with
  | [] => None
  | route :: rest =>
      if serves (route_method route) (method r) then
        match segments (url r) with
        | Some path =>
            match match_path (route_pattern route) path with
            | Some params => Some (route_handler route params (body r))
            | None => dispatch rest r
            end
        | None => dispatch rest r
        end
      else dispatch rest r
  end.

(** What the routes of [registerRoutes] do with a request: [None] when
    none of them fits, and then they leave the world as it is. *)
Definition serve (env : Env) (r : Request) : Eff (option Response) :=
  match dispatch (registerRoutes env) r with
  | Some handler => let* response := handler in ret (Some response)
  | None => ret None
  end.

(** ** The chat page: [sendMessageMutation] *)

(** The reply of [window.puter.ai.chat]: [response.message?.content] and
    [response.toString()]. *)
Record PuterResponse : Type := mkPuterResponse {
  puter_content : option string;
  puter_toString : string
}.

Record Browser : Type := mkBrowser {
  cached_messages : option (list Message);
  puter_chat : list ChatMessage → string → nat → Exn + PuterResponse
}.

Inductive ClientAction : Type :=
| PuterChat (history : list ChatMessage) (model : string) (max_tokens : nat)
| ApiRequest (r : Request).

Definition chat_body (chatRequest : ChatRequest) : Body :=
  {| body_message := Some (req_message chatRequest);
     body_provider := Some (req_provider chatRequest);
     body_sessionId := Some (req_sessionId chatRequest);
     body_apiKey := req_apiKey chatRequest;
     body_content := None |}.

(** [response.message?.content || response.toString() || "No response received"] *)
Definition aiContent (response : PuterResponse) : string :=
  or_else (Some (or_else (puter_content response) (puter_toString response))) sentinel.

(** [mutationFn] of [sendMessageMutation], as the requests it issues.
    [sessionId] is the session of the page. *)
Definition mutationFn (browser : Browser) (sessionId : string) (chatRequest : ChatRequest)
  : list ClientAction :=
  if decide (req_provider chatRequest = "puter") then
    let history :=
      conversationHistory (default [] (cached_messages browser))
        ++ [{| chat_role := user; chat_content := req_message chatRequest |}] in
    PuterChat history "gpt-4o" 1000 ::
    match puter_chat browser history "gpt-4o" 1000 with
    | inl _ => []
    | inr response =>
        [ApiRequest {| method := POST; url := "/api/ai-response";
                       body := {| body_message := None;
                                  body_provider := Some "puter";
                                  body_sessionId := Some sessionId;
                                  body_apiKey := None;
                                  body_content := Some (aiContent response) |} |}]
    end
  else
    [ApiRequest {| method := POST; url := "/api/chat"; body := chat_body chatRequest |}].

(** The requests of the page that reach the server, served in order by
    the routes of [registerRoutes]; a call to Puter goes elsewhere. *)
Fixpoint deliver (env : Env) (actions : list ClientAction) : Eff (list (option Response)) :=
  match actions with
  | [] => ret []
  | PuterChat _ _ _ :: rest => deliver env rest
  | ApiRequest r :: rest =>
      let* response := serve env r in
      let* responses := deliver env rest in
      ret (response :: responses)
  end.

(** One chat turn of the page against the server. *)
Definition chat_turn (env : Env) (browser : Browser) (sessionId : string)
    (chatRequest : ChatRequest) : Eff (list (option Response)) :=
  deliver env (mutationFn browser sessionId chatRequest).

(** ** The runs of [POST /api/chat], case by case *)

(** The two messages a turn hands to [storage.createMessage]. *)
Definition user_insert (request : ChatRequest) : InsertMessage :=
  {| ins_content := req_message request; ins_role := user;
     ins_provider := Some (req_provider request);
     ins_sessionId := req_sessionId request |}.

Definition assistant_insert (request : ChatRequest) (aiResponse : string) : InsertMessage :=
  {| ins_content := aiResponse; ins_role := assistant;
     ins_provider := Some (req_provider request);
     ins_sessionId := req_sessionId request |}.

(** What a request to a known provider comes to: the calls sent, and the
    completion received or the exception thrown. *)
Inductive ProviderOutcome (env : Env) (apiKey : option string) (history : list ChatMessage)
  : string → list ProviderCall → Exn + Completion → Prop :=
| openai_refused e :
    openai_new env apiKey = Some e →
    ProviderOutcome env apiKey history "openai" [] (inl e)
| openai_called :
    openai_new env apiKey = None →
    ProviderOutcome env apiKey history "openai"
      [OpenAICreate apiKey (openai_params history)]
      (openai_create env apiKey (openai_params history))
| deepseek_unreachable e :
    fetch env deepseek_url (deepseek_init apiKey history) = inl e →
    ProviderOutcome env apiKey history "deepseek"
      [Fetch deepseek_url (deepseek_init apiKey history)] (inl e)
| deepseek_not_ok response :
    fetch env deepseek_url (deepseek_init apiKey history) = inr response →
    ok response = false →
    ProviderOutcome env apiKey history "deepseek"
      [Fetch deepseek_url (deepseek_init apiKey history)]
      (inl (Error "Error" ("DeepSeek API error: " +:+ statusText response)))
| deepseek_called response :
    fetch env deepseek_url (deepseek_init apiKey history) = inr response →
    ok response = true →
    ProviderOutcome env apiKey history "deepseek"
      [Fetch deepseek_url (deepseek_init apiKey history)] (json response).

Definition sent (w : World) (st : Storage) (calls : list ProviderCall) : World :=
  {| storage := st; outbox := outbox w ++ calls |}.

(** Every way a [POST /api/chat] can go, with the world it leaves and
    the reply it gives. *)
Inductive ChatRun (env : Env) (body : Body) (w : World) : World → Response → Prop :=
| run_invalid e :
    chatRequestSchema_parse body = inl e →
    ChatRun env body w w (chat_catch e)
| run_user_refused request e :
    chatRequestSchema_parse body = inr request →
    append (storage w) (user_insert request) = inl e →
    ChatRun env body w w (chat_catch e)
| run_unsupported request u st1 :
    chatRequestSchema_parse body = inr request →
    append (storage w) (user_insert request) = inr (u, st1) →
    req_provider request ≠ "openai" →
    req_provider request ≠ "deepseek" →
    ChatRun env body w (sent w st1 []) (chat_catch (Error "Error" "Invalid provider"))
| run_provider_failed request u st1 calls e :
    chatRequestSchema_parse body = inr request →
    append (storage w) (user_insert request) = inr (u, st1) →
    ProviderOutcome env (req_apiKey request)
      (conversationHistory (read st1 (req_sessionId request)))
      (req_provider request) calls (inl e) →
    ChatRun env body w (sent w st1 calls) (chat_catch e)
| run_no_choices request u st1 calls data e :
    chatRequestSchema_parse body = inr request →
    append (storage w) (user_insert request) = inr (u, st1) →
    ProviderOutcome env (req_apiKey request)
      (conversationHistory (read st1 (req_sessionId request)))
      (req_provider request) calls (inr data) →
    reply_text data = inl e →
    ChatRun env body w (sent w st1 calls) (chat_catch e)
| run_reply_refused request u st1 calls data aiResponse e :
    chatRequestSchema_parse body = inr request →
    append (storage w) (user_insert request) = inr (u, st1) →
    ProviderOutcome env (req_apiKey request)
      (conversationHistory (read st1 (req_sessionId request)))
      (req_provider request) calls (inr data) →
    reply_text data = inr aiResponse →
    append st1 (assistant_insert request aiResponse) = inl e →
    ChatRun env body w (sent w st1 calls) (chat_catch e)
| run_done request u st1 calls data aiResponse a st2 :
    chatRequestSchema_parse body = inr request →
    append (storage w) (user_insert request) = inr (u, st1) →
    ProviderOutcome env (req_apiKey request)
      (conversationHistory (read st1 (req_sessionId request)))
      (req_provider request) calls (inr data) →
    reply_text data = inr aiResponse →
    append st1 (assistant_insert request aiResponse) = inr (a, st2) →
    ChatRun env body w (sent w st2 calls) (res_json (ChatJson a)).

(** The failures of a turn that count as a refusal of its input. *)
Definition is_validation_error (e : Exn) : bool :=
  match e with
  | ZodError _ => true
  | Error name _ => bool_decide (name = "ValidationError")
  | Thrown _ => false
  end.

(** The world after a request and the reply to it. *)
Definition world_after {A} (run : World * (Exn + A)) : World := fst run.
Definition reply_of {A} (run : World * (Exn + A)) : Exn + A := snd run.

(** ** Sample worlds and providers *)

Definition empty_world : World := {| storage := empty_storage; outbox := [] |}.

Definition hello (provider : string) : Body :=
  {| body_message := Some "hello"; body_provider := Some provider;
     body_sessionId := Some "s1"; body_apiKey := Some "sk-test";
     body_content := None |}.

Definition completion_of (text : option string) : Completion :=
  {| choices := Some [{| choice_message := Some {| reply_content := text |} |}] |}.

(** Both providers answer every request with the same completion. *)
Definition env_answering (data : Completion) : Env :=
  {| openai_new := λ _, None;
     openai_create := λ _ _, inr data;
     fetch := λ _ _, inr {| ok := true; statusText := "OK"; json := inr data |} |}.

(** Both providers are unreachable: the call throws. *)
Definition env_unreachable (message : string) : Env :=
  {| openai_new := λ _, None;
     openai_create := λ _ _, inl (Error "Error" message);
     fetch := λ _ _, inl (Error "Error" message) |}.

(** DeepSeek answers with a status that is not a success. *)
Definition env_status (text : string) : Env :=
  {| openai_new := λ _, None;
     openai_create := λ _ _, inl (Error "Error" text);
     fetch := λ _ _, inr {| ok := false; statusText := text;
                            json := inl (Error "SyntaxError" "Unexpected end of JSON input") |} |}.

(** A string with no white space code point at its front, and one with
    none at its end. *)
Definition starts_clean (s : string) : Prop := strip false s = None.

Definition ends_clean (s : string) : Prop := strip true (String.rev s) = None.

(** U+00A0, the no-break space, as its two bytes. *)
Definition nbsp : string := String "194" (String "160" EmptyString).


(** ** The chat page: state, guards and labels *)

(** A session identifier that is a path segment as it stands: letters,
    digits, [-] and [_] only, and not empty.  The identifiers of the page,
    [session-<Date.now()>], are of this kind; such a segment is what
    [req.params] gives back, with nothing to decode. *)
Definition is_plain (c : ascii) : bool :=
  let n := nat_of_ascii c in
  (Nat.leb 48 n && Nat.leb n 57) || (Nat.leb 65 n && Nat.leb n 90)
  || (Nat.leb 97 n && Nat.leb n 122) || Nat.eqb n 45 || Nat.eqb n 95.

Fixpoint all_plain (s : string) : bool :=
  match s with
  | EmptyString => true
  | String c rest => is_plain c && all_plain rest
  end.

Definition plain_segment (s : string) : bool := negb (falsy s) && all_plain s.

Module Chat.

(** [type Provider = "openai" | "deepseek" | "puter"] *)
Inductive Provider : Type := openai | deepseek | puter.

#[global] Instance Provider_eq_dec : EqDecision Provider.
Proof. solve_decision. Defined.

Definition provider_name (p : Provider) : string :=
  match p with
  | openai => "openai"
  | deepseek => "deepseek"
  | puter => "puter"
  end.

(** The state of the component: the [useState] cells, whether
    [sendMessageMutation] is pending, and the browser's [sessionStorage]. *)
Record State : Type := mkState {
  st_message : string;
  st_provider : Provider;
  st_apiKey : string;
  st_sessionId : string;
  st_isPending : bool;
  st_sessionStorage : gmap string string
}.

(** The initial state: [useState("")], [useState("puter")], [useState("")]
    and the session identifier made at the first render. *)
Definition initial (sessionId : string) (storage : gmap string string) : State :=
  {| st_message := EmptyString; st_provider := puter; st_apiKey := EmptyString;
     st_sessionId := sessionId; st_isPending := false;
     st_sessionStorage := storage |}.

(** [`apiKey-${provider}`] *)
Definition key_slot (p : Provider) : string := "apiKey-" +:+ provider_name p.

(** The first effect, with dependency [provider]: the argument of the
    [setApiKey] it calls, if it calls it. *)
Definition effect_load (st : State) : option string :=
  match st_sessionStorage st !! key_slot (st_provider st) with
  | Some storedApiKey => if falsy storedApiKey then None else Some storedApiKey
  | None => None
  end.

(** The second effect, with dependencies [apiKey] and [provider]. *)
Definition effect_save (st : State) : State :=
  if falsy (st_apiKey st) then st
  else {| st_message := st_message st; st_provider := st_provider st;
          st_apiKey := st_apiKey st; st_sessionId := st_sessionId st;
          st_isPending := st_isPending st;
          st_sessionStorage :=
            <[key_slot (st_provider st) := st_apiKey st]> (st_sessionStorage st) |}.

Definition with_apiKey (apiKey : string) (st : State) : State :=
  {| st_message := st_message st; st_provider := st_provider st;
     st_apiKey := apiKey; st_sessionId := st_sessionId st;
     st_isPending := st_isPending st; st_sessionStorage := st_sessionStorage st |}.

Definition with_provider (p : Provider) (st : State) : State :=
  {| st_message := st_message st; st_provider := p;
     st_apiKey := st_apiKey st; st_sessionId := st_sessionId st;
     st_isPending := st_isPending st; st_sessionStorage := st_sessionStorage st |}.

(** The effects after a render, as React runs them: in the order they
    are declared, each one only if one of its dependencies changed, all
    with the values of that render.  A [setApiKey] with a new value makes
    one more render, after which only the second effect has a changed
    dependency. *)
Definition commit (provider_changed apiKey_changed : bool) (st : State) : State :=
  let update := if provider_changed then effect_load st else None in
  let st1 := if provider_changed || apiKey_changed then effect_save st else st in
  match update with
  | Some storedApiKey =>
      if decide (storedApiKey = st_apiKey st) then st1
      else effect_save (with_apiKey storedApiKey st1)
  | None => st1
  end.

(** The first render. *)
Definition mount (st : State) : State := commit true true st.

(** [setProvider(value)] of the provider select. *)
Definition setProvider (p : Provider) (st : State) : State :=
  if decide (p = st_provider st) then st else commit true false (with_provider p st).

(** [setApiKey(e.target.value)] of the key input. *)
Definition setApiKey (apiKey : string) (st : State) : State :=
  if decide (apiKey = st_apiKey st) then st else commit false true (with_apiKey apiKey st).

(** What [handleSendMessage] does. *)
Inductive SendOutcome : Type :=
| Ignored
| Toast (title description : string)
| Mutate (chatRequest : ChatRequest).

Definition handleSendMessage (st : State) : SendOutcome :=
  if falsy (trim (st_message st)) || st_isPending st then Ignored
  else if negb (bool_decide (st_provider st = puter)) && falsy (trim (st_apiKey st)) then
    Toast "Error" "API key is required for this provider"
  else
    Mutate {| req_message := trim (st_message st);
              req_provider := provider_name (st_provider st);
              req_sessionId := st_sessionId st;
              req_apiKey := if decide (st_provider st = puter) then None
                            else Some (st_apiKey st) |}.

(** [canSend], as the truth value the Send button tests. *)
Definition canSend (st : State) : bool :=
  negb (falsy (trim (st_message st)))
  && (bool_decide (st_provider st = puter) || negb (falsy (trim (st_apiKey st))))
  && negb (st_isPending st).

Definition isConnected (st : State) : bool :=
  if decide (st_provider st = puter) then true else negb (falsy (trim (st_apiKey st))).

(** The name shown above a message. *)
Definition author_label (msg : Message) : string :=
  if decide (role msg = user) then "You"
  else if decide (provider msg = Some "openai") then "ChatGPT"
  else if decide (provider msg = Some "deepseek") then "DeepSeek"
  else "Puter AI".

(** The name shown above the loading indicator. *)
Definition pending_label (p : Provider) : string :=
  if decide (p = openai) then "ChatGPT"
  else if decide (p = deepseek) then "DeepSeek"
  else "Puter AI".

(** [mutationFn] of [clearMessagesMutation]. *)
Definition clearMutationFn (sessionId : string) : list ClientAction :=
  [ApiRequest {| method := DELETE; url := "/api/messages/" +:+ sessionId;
                 body := {| body_message := None; body_provider := None;
                            body_sessionId := None; body_apiKey := None;
                            body_content := None |} |}].

(** [handleClearChat], given the answer to [window.confirm]. *)
Definition handleClearChat (confirmed : bool) (st : State) : list ClientAction :=
  if confirmed then clearMutationFn (st_sessionId st) else [].

(** The requests [handleSendMessage] makes the page issue. *)
Definition send_actions (browser : Browser) (st : State) : list ClientAction :=
  match handleSendMessage st with
  | Mutate chatRequest => mutationFn browser (st_sessionId st) chatRequest
  | _ => []
  end.

(** The key in the field, when it is not empty, is the one saved for the
    current provider. *)
Definition key_saved (st : State) : Prop :=
  falsy (st_apiKey st) = false →
  st_sessionStorage st !! key_slot (st_provider st) = Some (st_apiKey st).

End Chat.

(** * Properties *)

(** ** The store *)

Lemma read_append st ins m st' :
  append st ins = inr (m, st') →
  read st' (ins_sessionId ins) = read st (ins_sessionId ins) ++ [m].
Proof.
  unfold append. destruct (falsy _); [done|].
  intros [= <- <-]. unfold read at 1. simpl. by rewrite lookup_insert_eq.
Qed.

Lemma read_append_other st ins m st' sid :
  append st ins = inr (m, st') → sid ≠ ins_sessionId ins →
  read st' sid = read st sid.
Proof.
  unfold append. destruct (falsy _); [done|].
  intros [= <- <-] Hne. unfold read. simpl. by rewrite lookup_insert_ne.
Qed.

Lemma append_message st ins m st' :
  append st ins = inr (m, st') → m = build_message st ins.
Proof. unfold append. destruct (falsy _); [done|]. by intros [= <- <-]. Qed.

Lemma append_accepts st ins :
  falsy (trim (ins_content ins)) = false →
  ∃ st', append st ins = inr (build_message st ins, st').
Proof. intros H. unfold append. rewrite H. eauto. Qed.

Lemma append_refuses st ins :
  falsy (trim (ins_content ins)) = true →
  ∃ message, append st ins = inl (Error "ValidationError" message).
Proof. intros H. unfold append. rewrite H. eauto. Qed.

(** ** [||] *)

Lemma or_else_truthy v d : falsy d = false → falsy (or_else v d) = false.
Proof. intros Hd. destruct v as [s|]; simpl; [|done]. by destruct (falsy s) eqn:Hs. Qed.

Lemma or_else_default v d :
  v = None ∨ v = Some EmptyString → or_else v d = d.
Proof. by intros [-> | ->]. Qed.

Lemma or_else_value s d : falsy s = false → or_else (Some s) d = s.
Proof. simpl. by intros ->. Qed.

Lemma falsy_empty s : falsy s = true ↔ s = EmptyString.
Proof. by destruct s. Qed.

(** ** The provider chain *)

Lemma sent_nil w : sent w (storage w) [] = w.
Proof. destruct w. unfold sent. simpl. by rewrite app_nil_r. Qed.

Lemma complete_run env provider sid apiKey w :
  provider = "openai" ∨ provider = "deepseek" →
  ∃ calls result,
    ProviderOutcome env apiKey (conversationHistory (read (storage w) sid))
      provider calls result
    ∧ complete env provider sid apiKey w
      = (sent w (storage w) calls,
         match result with inl e => inl e | inr data => reply_text data end).
Proof.
  intros [-> | ->]; unfold complete; simpl.
  - unfold ask_openai, bind, await, getMessages, send.
    destruct (openai_new env apiKey) as [e|] eqn:Hnew; simpl.
    + exists [], (inl e). split; [by constructor|]. by rewrite sent_nil.
    + eexists _, _. split; [by apply openai_called|].
      unfold sent. simpl.
      destruct (openai_create env apiKey _) as [e|data]; simpl; [done|].
      by destruct (reply_text data).
  - unfold ask_deepseek, bind, await, getMessages, send. simpl.
    destruct (fetch env deepseek_url _) as [e|response] eqn:Hfetch.
    + eexists _, (inl e). split; [by apply deepseek_unreachable|]. done.
    + destruct (ok response) eqn:Hok; simpl.
      * eexists _, _. split; [by eapply deepseek_called|].
        unfold sent. simpl.
        destruct (json response) as [e|data]; simpl; [done|].
        by destruct (reply_text data).
      * eexists _, _. split; [by eapply deepseek_not_ok|]. done.
Qed.

Lemma complete_unknown env provider sid apiKey w :
  provider ≠ "openai" → provider ≠ "deepseek" →
  complete env provider sid apiKey w = (w, inl (Error "Error" "Invalid provider")).
Proof.
  intros H1 H2. unfold complete.
  destruct (decide (provider = "openai")); [done|].
  destruct (decide (provider = "deepseek")); done.
Qed.

(** ** Every request to [POST /api/chat] is one of the runs *)

Lemma post_chat_run env body w :
  ∃ w' response,
    post_chat env body w = (w', inr response) ∧ ChatRun env body w w' response.
Proof.
  unfold post_chat, try_catch, chat_try, bind, await.
  destruct (chatRequestSchema_parse body) as [e|request] eqn:Hparse; simpl.
  { eexists _, _. split; [done|]. by constructor. }
  unfold createMessage at 1.
  change (mkInsert (req_message request) user (Some (req_provider request))
            (req_sessionId request)) with (user_insert request).
  destruct (append (storage w) (user_insert request)) as [e|[u st1]] eqn:Huser.
  { eexists _, _. split; [done|]. by eapply run_user_refused. }
  set (w1 := {| storage := st1; outbox := outbox w |}).
  destruct (decide (req_provider request = "openai"
                    ∨ req_provider request = "deepseek")) as [Hknown|Hunknown].
  - destruct (complete_run env _ (req_sessionId request) (req_apiKey request) w1 Hknown)
      as (calls & result & Hout & ->).
    change (sent w1 (storage w1) calls) with (sent w st1 calls).
    destruct result as [e|data]; simpl.
    { eexists _, _. split; [done|]. by eapply run_provider_failed. }
    destruct (reply_text data) as [e|aiResponse] eqn:Htext; simpl.
    { eexists _, _. split; [done|]. by eapply run_no_choices. }
    unfold createMessage. simpl.
    change (mkInsert aiResponse assistant (Some (req_provider request))
              (req_sessionId request)) with (assistant_insert request aiResponse).
    destruct (append st1 (assistant_insert request aiResponse)) as [e|[a st2]] eqn:Hai.
    { eexists _, _. split; [done|]. by eapply run_reply_refused. }
    eexists _, _. split; [done|]. by eapply run_done.
  - rewrite complete_unknown by tauto. simpl.
    eexists _, _. split; [done|].
    replace w1 with (sent w st1 []) by (unfold sent, w1; by rewrite app_nil_r).
    eapply run_unsupported; eauto.
Qed.

Lemma post_chat_inv env body w w' reply :
  post_chat env body w = (w', reply) →
  ∃ response, reply = inr response ∧ ChatRun env body w w' response.
Proof.
  intros H. destruct (post_chat_run env body w) as (w1 & r & Heq & Hrun).
  rewrite Heq in H. injection H as <- <-. eauto.
Qed.

Ltac same_result :=
  repeat match goal with
  | H1 : ?t = inl _, H2 : ?t = inr _ |- _ => congruence
  | H1 : ?t = inr ?a, H2 : ?t = inr ?b |- _ =>
      assert (b = a) by congruence; clear H2; simplify_eq
  | H1 : ?t = inl ?a, H2 : ?t = inl ?b |- _ =>
      assert (b = a) by congruence; clear H2; simplify_eq
  end.

Lemma ProviderOutcome_known env apiKey history provider calls result :
  ProviderOutcome env apiKey history provider calls result →
  provider = "openai" ∨ provider = "deepseek".
Proof. destruct 1; auto. Qed.

Lemma ProviderOutcome_functional env apiKey history provider calls1 result1 calls2 result2 :
  ProviderOutcome env apiKey history provider calls1 result1 →
  ProviderOutcome env apiKey history provider calls2 result2 →
  calls1 = calls2 ∧ result1 = result2.
Proof.
  destruct 1; inversion 1; subst; try done; try congruence;
    split; congruence.
Qed.

Lemma ProviderOutcome_calls env apiKey history provider calls result :
  ProviderOutcome env apiKey history provider calls result →
  Forall (λ c, call_params c = openai_params history
               ∨ call_params c = init_body (deepseek_init apiKey history)) calls.
Proof.
  destruct 1; repeat (apply Forall_cons_2; [simpl; auto|]); apply Forall_nil_2.
Qed.

Lemma parse_fields body request :
  chatRequestSchema_parse body = inr request →
  body_message body = Some (req_message request)
  ∧ body_provider body = Some (req_provider request)
  ∧ body_sessionId body = Some (req_sessionId request)
  ∧ falsy (req_message request) = false
  ∧ req_provider request ∈ provider_enum.
Proof.
  unfold chatRequestSchema_parse.
  destruct (body_message body) as [m|]; [|done].
  destruct (body_provider body) as [p|]; [|by destruct (check_message _ ++ _)].
  destruct (body_sessionId body) as [sid|]; [|by destruct (check_message _ ++ _)].
  simpl. destruct (falsy m) eqn:Hm; [done|]. simpl.
  destruct (bool_decide (p ∈ provider_enum)) eqn:Hp; [|done]. simpl.
  destruct (check_apiKey _ _); [|done].
  intros [= <-]. simpl. apply bool_decide_eq_true in Hp. done.
Qed.

Lemma parse_refuses body e :
  chatRequestSchema_parse body = inl e → ∃ issues, e = ZodError issues.
Proof.
  unfold chatRequestSchema_parse.
  destruct (body_message body), (body_provider body), (body_sessionId body);
    destruct (check_message _ ++ _); intros [= <-]; eauto.
Qed.

(** A request with a provider outside the chain: the user message is
    stored, then the request is refused. *)
Lemma unsupported_provider_run env body w request :
  chatRequestSchema_parse body = inr request →
  falsy (trim (req_message request)) = false →
  req_provider request ≠ "openai" → req_provider request ≠ "deepseek" →
  ∃ w', post_chat env body w
        = (w', inr (res_status_json 500 (ErrorJson "Invalid provider" None)))
    ∧ read (storage w') (req_sessionId request)
      = read (storage w) (req_sessionId request)
          ++ [build_message (storage w) (user_insert request)].
Proof.
  intros Hparse Hmsg Ho Hd.
  destruct (post_chat_run env body w) as (w' & r & Heq & Hrun).
  exists w'.
  destruct (append_accepts (storage w) (user_insert request) Hmsg) as [st1 Hap].
  inversion Hrun; subst; same_result;
    try match goal with
        | H : ProviderOutcome _ _ _ _ _ _ |- _ =>
            apply ProviderOutcome_known in H; tauto
        end.
  split; [done|]. simpl. apply (read_append _ (user_insert request) _ _ Hap).
Qed.

(** ** C1 *)

(** C1, at the input where the code departs from it: a request for the
    provider "puter", which the request type admits and the provider chain
    does not serve, is answered with status 500 and "Invalid provider",
    and by then the user message has been appended to the session. *)
Theorem chat_puter_stored_then_refused env w :
  let run := post_chat env (hello "puter") w in
  reply_of run = inr (res_status_json 500 (ErrorJson "Invalid provider" None))
  ∧ read (storage (world_after run)) "s1"
    = read (storage w) "s1"
        ++ [{| id := created (storage w); sessionId := "s1"; role := user;
               content := "hello"; provider := Some "puter";
               timestamp := created (storage w) |}].
Proof.
  destruct (unsupported_provider_run env (hello "puter") w
              {| req_message := "hello"; req_provider := "puter";
                 req_sessionId := "s1"; req_apiKey := Some "sk-test" |})
    as (w' & Heq & Hread); [done..|].
  intros run. subst run. unfold reply_of, world_after. rewrite Heq. done.
Qed.

(** ** What a turn adds to the transcripts *)

Lemma chat_run_transcript env body w w' response :
  ChatRun env body w w' response → ∀ sid,
  ∃ news,
    read (storage w') sid = read (storage w) sid ++ news
    ∧ (news = []
       ∨ ∃ request u st1,
           chatRequestSchema_parse body = inr request
           ∧ sid = req_sessionId request
           ∧ append (storage w) (user_insert request) = inr (u, st1)
           ∧ (news = [u]
              ∨ ∃ aiResponse a st2,
                  append st1 (assistant_insert request aiResponse) = inr (a, st2)
                  ∧ news = [u; a] ∧ response = res_json (ChatJson a))).
Proof.
  intros Hrun sid.
  inversion Hrun; subst; simpl;
    try (exists []; rewrite app_nil_r; by auto);
    destruct (decide (sid = req_sessionId request)) as [->|Hne];
    try (exists []; rewrite app_nil_r; split; [|by auto];
         repeat match goal with
           | H : append _ (assistant_insert _ _) = inr _ |- _ =>
               rewrite (read_append_other _ _ _ _ sid H) by done; clear H
           | H : append _ (user_insert _) = inr _ |- _ =>
               rewrite (read_append_other _ _ _ _ sid H) by done; clear H
           end; done).
  - exists [u]. split; [apply (read_append _ (user_insert request)); done|].
    right. eexists _, _, _. eauto.
  - exists [u]. split; [apply (read_append _ (user_insert request)); done|].
    right. eexists _, _, _. eauto.
  - exists [u]. split; [apply (read_append _ (user_insert request)); done|].
    right. eexists _, _, _. eauto.
  - exists [u]. split; [apply (read_append _ (user_insert request)); done|].
    right. eexists _, _, _. eauto.
  - exists [u; a]. split.
    + repeat match goal with
        | H : append _ _ = inr _ |- _ => apply read_append in H; simpl in H
        end.
      match goal with
      | Hu : read st1 _ = _ ++ [u], Ha : read st2 _ = _ ++ [a] |- _ =>
          rewrite Ha, Hu, <- app_assoc; done
      end.
    + right. eexists _, _, _. repeat split; eauto.
      right. eexists _, _, _. eauto.
Qed.

(** ** C2 *)

(** C2 as stated fails: after a successful turn with the provider
    "openai" the stored user message has its provider set. *)
Lemma user_message_provider_is_set :
  ¬ (∀ m,
       m ∈ read (storage (world_after
                  (post_chat (env_answering (completion_of (Some "hi")))
                     (hello "openai") empty_world))) "s1" →
       role m = user → provider m = None).
Proof.
  intros H.
  specialize (H {| id := 0; sessionId := "s1"; role := user; content := "hello";
                   provider := Some "openai"; timestamp := 0 |}).
  assert (Hin : {| id := 0; sessionId := "s1"; role := user; content := "hello";
                   provider := Some "openai"; timestamp := 0 |}
                ∈ read (storage (world_after
                     (post_chat (env_answering (completion_of (Some "hi")))
                        (hello "openai") empty_world))) "s1").
  { vm_compute. left. }
  specialize (H Hin eq_refl). discriminate H.
Qed.

(** C2, amended: every message a [POST /api/chat] stores, the user
    message as well as the assistant message, carries the provider named in
    the request; a turn stores nothing, a user message, or a user message
    followed by an assistant message. *)
Theorem stored_messages_carry_request_provider env body w sid :
  ∃ news,
    read (storage (world_after (post_chat env body w))) sid
    = read (storage w) sid ++ news
    ∧ Forall (λ m, provider m = body_provider body ∧ sessionId m = sid) news
    ∧ (map role news = [] ∨ map role news = [user]
       ∨ map role news = [user; assistant]).
Proof.
  destruct (post_chat_run env body w) as (w' & r & Heq & Hrun).
  rewrite Heq. unfold world_after. simpl.
  destruct (chat_run_transcript _ _ _ _ _ Hrun sid) as (news & Hread & Hnews).
  exists news. split; [done|].
  destruct Hnews as [->|(request & u & st1 & Hparse & -> & Huser & Hnews)].
  { split; [constructor|by left]. }
  destruct (parse_fields _ _ Hparse) as (_ & Hp & _).
  pose proof (append_message _ _ _ _ Huser) as ->.
  destruct Hnews as [->|(aiResponse & a & st2 & Hai & -> & _)].
  - split; [|by right; left]. repeat constructor; done.
  - pose proof (append_message _ _ _ _ Hai) as ->.
    split; [|by right; right]. repeat constructor; done.
Qed.

(** ** C3 *)

(** A turn whose provider request fails: the exception is caught and
    turned into the reply, and the session has gained the user message
    only. *)
Lemma provider_failure_run env body w request u st1 calls e :
  chatRequestSchema_parse body = inr request →
  append (storage w) (user_insert request) = inr (u, st1) →
  ProviderOutcome env (req_apiKey request)
    (conversationHistory (read st1 (req_sessionId request)))
    (req_provider request) calls (inl e) →
  post_chat env body w = (sent w st1 calls, inr (chat_catch e)).
Proof.
  intros Hparse Huser Hout.
  destruct (post_chat_run env body w) as (w' & r & Heq & Hrun).
  rewrite Heq.
  inversion Hrun; subst; same_result;
    try match goal with
        | H : req_provider _ ≠ _ |- _ =>
            apply ProviderOutcome_known in Hout; tauto
        | H : ProviderOutcome _ _ _ _ _ _ |- _ =>
            destruct (ProviderOutcome_functional _ _ _ _ _ _ _ _ Hout H);
            simplify_eq
        end.
  done.
Qed.

(** C3 as stated fails in what the caller is told: no reply to a failed
    provider request lets the caller recover the provider's name.  A
    request to "openai" and one to "deepseek" that fail with the same
    upstream message get the same reply. *)
Lemma failure_reply_hides_provider :
  ¬ (∃ provider_of : Response → string,
       ∀ env body w request u st1 calls e response,
         chatRequestSchema_parse body = inr request →
         append (storage w) (user_insert request) = inr (u, st1) →
         ProviderOutcome env (req_apiKey request)
           (conversationHistory (read st1 (req_sessionId request)))
           (req_provider request) calls (inl e) →
         reply_of (post_chat env body w) = inr response →
         provider_of response = req_provider request).
Proof.
  intros [provider_of H].
  pose (r := res_status_json 500 (ErrorJson "fetch failed" None)).
  assert (H1 : provider_of r = "openai").
  { apply (H (env_unreachable "fetch failed") (hello "openai") empty_world
             (mkChatRequest "hello" "openai" "s1" (Some "sk-test"))
             (mkMessage 0 "s1" user "hello" (Some "openai") 0)
             (mkStorage
                {["s1" := [mkMessage 0 "s1" user "hello" (Some "openai") 0]]} 1)
             [OpenAICreate (Some "sk-test") (openai_params [mkChat user "hello"])]
             (Error "Error" "fetch failed")).
    - reflexivity.
    - reflexivity.
    - exact (openai_called (env_unreachable "fetch failed") (Some "sk-test")
               [mkChat user "hello"] eq_refl).
    - reflexivity. }
  assert (H2 : provider_of r = "deepseek").
  { apply (H (env_unreachable "fetch failed") (hello "deepseek") empty_world
             (mkChatRequest "hello" "deepseek" "s1" (Some "sk-test"))
             (mkMessage 0 "s1" user "hello" (Some "deepseek") 0)
             (mkStorage
                {["s1" := [mkMessage 0 "s1" user "hello" (Some "deepseek") 0]]} 1)
             [Fetch deepseek_url (deepseek_init (Some "sk-test") [mkChat user "hello"])]
             (Error "Error" "fetch failed")).
    - reflexivity.
    - reflexivity.
    - exact (deepseek_unreachable (env_unreachable "fetch failed") (Some "sk-test")
               [mkChat user "hello"] (Error "Error" "fetch failed") eq_refl).
    - reflexivity. }
  rewrite H1 in H2. discriminate H2.
Qed.

(** C3, amended: when the request to a known provider fails (the client
    library or [fetch] throws, DeepSeek answers with a status that is not a
    success, or the body is not JSON), no assistant message is appended,
    the user message stays (the session gains exactly that one message), no
    exception leaves the handler, and the caller gets the reply the [catch]
    block makes of the exception: a status 500 whose [error] is the
    exception's message and nothing else, which for a DeepSeek status is
    "DeepSeek API error: " followed by the status text. *)
Theorem provider_failure_keeps_user_message env body w request u st1 calls e :
  chatRequestSchema_parse body = inr request →
  append (storage w) (user_insert request) = inr (u, st1) →
  ProviderOutcome env (req_apiKey request)
    (conversationHistory (read st1 (req_sessionId request)))
    (req_provider request) calls (inl e) →
  let run := post_chat env body w in
  reply_of run = inr (chat_catch e)
  ∧ (∀ name message, e = Error name message →
       chat_catch e = res_status_json 500 (ErrorJson message None))
  ∧ (∀ response,
       fetch env deepseek_url
         (deepseek_init (req_apiKey request)
            (conversationHistory (read st1 (req_sessionId request)))) = inr response →
       req_provider request = "deepseek" → ok response = false →
       chat_catch e
       = res_status_json 500
           (ErrorJson ("DeepSeek API error: " +:+ statusText response) None))
  ∧ read (storage (world_after run)) (req_sessionId request)
    = read (storage w) (req_sessionId request) ++ [u]
  ∧ role u = user ∧ content u = req_message request
  ∧ provider u = Some (req_provider request).
Proof.
  intros Hparse Huser Hout run. subst run.
  rewrite (provider_failure_run _ _ _ _ _ _ _ _ Hparse Huser Hout).
  unfold reply_of, world_after. simpl.
  split; [done|]. split; [by intros ? ? ->|]. split.
  - intros response Hfetch Hp Hok.
    assert (Hout' := deepseek_not_ok env (req_apiKey request) _ _ Hfetch Hok).
    rewrite Hp in Hout.
    destruct (ProviderOutcome_functional _ _ _ _ _ _ _ _ Hout Hout') as [_ [= ->]].
    done.
  - split; [apply (read_append _ (user_insert request) _ _ Huser)|].
    by rewrite (append_message _ _ _ _ Huser).
Qed.

Lemma provider_failure_keeps_user_message_witness :
  let run := post_chat (env_status "Unauthorized") (hello "deepseek") empty_world in
  reply_of run
  = inr (res_status_json 500 (ErrorJson "DeepSeek API error: Unauthorized" None))
  ∧ read (storage (world_after run)) "s1"
    = [{| id := 0; sessionId := "s1"; role := user; content := "hello";
          provider := Some "deepseek"; timestamp := 0 |}].
Proof.
  destruct (provider_failure_keeps_user_message
              (env_status "Unauthorized") (hello "deepseek") empty_world
              (mkChatRequest "hello" "deepseek" "s1" (Some "sk-test"))
              (mkMessage 0 "s1" user "hello" (Some "deepseek") 0)
              (mkStorage
                 {["s1" := [mkMessage 0 "s1" user "hello" (Some "deepseek") 0]]} 1)
              [Fetch deepseek_url
                 (deepseek_init (Some "sk-test")
                    [mkChat user "hello"])]
              (Error "Error" "DeepSeek API error: Unauthorized"))
    as (Hreply & _ & _ & Hread & _).
  - reflexivity.
  - reflexivity.
  - apply (deepseek_not_ok (env_status "Unauthorized") (Some "sk-test")
             [mkChat user "hello"]
             (mkFetchResponse false "Unauthorized"
                (inl (Error "SyntaxError" "Unexpected end of JSON input"))));
      reflexivity.
  - split; [exact Hreply | exact Hread].
Defined.

(** ** Successful turns *)

Lemma chat_catch_status e : status (chat_catch e) ≠ 200.
Proof. by destruct e. Qed.

Lemma successful_run_inv env body w w' response :
  post_chat env body w = (w', inr response) → status response = 200 →
  ∃ request u st1 calls data aiResponse a st2,
    chatRequestSchema_parse body = inr request
    ∧ append (storage w) (user_insert request) = inr (u, st1)
    ∧ ProviderOutcome env (req_apiKey request)
        (conversationHistory (read st1 (req_sessionId request)))
        (req_provider request) calls (inr data)
    ∧ reply_text data = inr aiResponse
    ∧ append st1 (assistant_insert request aiResponse) = inr (a, st2)
    ∧ w' = sent w st2 calls
    ∧ response = res_json (ChatJson a).
Proof.
  intros Heq Hstatus.
  destruct (post_chat_inv _ _ _ _ _ Heq) as (r & [= <-] & Hrun).
  inversion Hrun; subst;
    try (exfalso; by eapply chat_catch_status).
  eexists _, _, _, _, _, _, _, _. eauto 10.
Qed.

(** The other way round: a request that parses, a user message the store
    takes, a provider that answers with a [choices] array and a reply the
    store takes make a successful turn. *)
Lemma successful_run env body w request u st1 calls data cs :
  chatRequestSchema_parse body = inr request →
  append (storage w) (user_insert request) = inr (u, st1) →
  ProviderOutcome env (req_apiKey request)
    (conversationHistory (read st1 (req_sessionId request)))
    (req_provider request) calls (inr data) →
  choices data = Some cs →
  falsy (trim (or_else (first_content cs) sentinel)) = false →
  ∃ st2,
    post_chat env body w
    = (sent w st2 calls,
       inr (res_json (ChatJson (build_message st1
              (assistant_insert request (or_else (first_content cs) sentinel))))))
    ∧ append st1 (assistant_insert request (or_else (first_content cs) sentinel))
      = inr (build_message st1
               (assistant_insert request (or_else (first_content cs) sentinel)), st2).
Proof.
  intros Hparse Huser Hout Hcs Htrim.
  destruct (append_accepts st1
              (assistant_insert request (or_else (first_content cs) sentinel)) Htrim)
    as [st2 Hai].
  exists st2. split; [|done].
  assert (Htext : reply_text data = inr (or_else (first_content cs) sentinel)).
  { unfold reply_text. by rewrite Hcs. }
  destruct (post_chat_run env body w) as (w' & r & Heq & Hrun).
  rewrite Heq.
  inversion Hrun; subst; same_result;
    try match goal with
        | H : req_provider _ ≠ _ |- _ =>
            apply ProviderOutcome_known in Hout; tauto
        | H : ProviderOutcome _ _ _ _ _ _ |- _ =>
            destruct (ProviderOutcome_functional _ _ _ _ _ _ _ _ Hout H);
            simplify_eq
        end; same_result.
  done.
Qed.

Lemma reply_text_content data s :
  reply_text data = inr s →
  ∃ cs, choices data = Some cs ∧ s = or_else (first_content cs) sentinel.
Proof.
  unfold reply_text. destruct (choices data) as [cs|]; [|done].
  intros [= <-]. eauto.
Qed.

(** ** C4 *)

(** C4: every successful [POST /api/chat] (status 200) appends exactly
    two messages to the session of the request and none to any other: first
    the user message with the content sent, then the assistant message with
    the reply text of the provider's completion and the provider of the
    request; the reply to the caller is that assistant message. *)
Theorem successful_turn_appends_user_then_assistant env body w w' response :
  post_chat env body w = (w', inr response) → status response = 200 →
  ∃ request u a calls data,
    chatRequestSchema_parse body = inr request
    ∧ read (storage w') (req_sessionId request)
      = read (storage w) (req_sessionId request) ++ [u; a]
    ∧ (∀ sid, sid ≠ req_sessionId request →
         read (storage w') sid = read (storage w) sid)
    ∧ role u = user ∧ content u = req_message request
    ∧ sessionId u = req_sessionId request
    ∧ role a = assistant ∧ sessionId a = req_sessionId request
    ∧ provider a = Some (req_provider request)
    ∧ ProviderOutcome env (req_apiKey request)
        (conversationHistory (read (storage w) (req_sessionId request) ++ [u]))
        (req_provider request) calls (inr data)
    ∧ reply_text data = inr (content a)
    ∧ (∀ cs s, choices data = Some cs → first_content cs = Some s →
         falsy s = false → content a = s)
    ∧ response = res_json (ChatJson a).
Proof.
  intros Heq Hstatus.
  destruct (successful_run_inv _ _ _ _ _ Heq Hstatus)
    as (request & u & st1 & calls & data & aiResponse & a & st2
        & Hparse & Huser & Hout & Htext & Hai & -> & ->).
  pose proof (read_append _ _ _ _ Huser) as Hr1.
  pose proof (read_append _ _ _ _ Hai) as Hr2.
  pose proof (append_message _ _ _ _ Huser) as Hu.
  pose proof (append_message _ _ _ _ Hai) as Ha.
  simpl in Hr1, Hr2.
  exists request, u, a, calls, data.
  split; [done|]. split.
  { simpl. rewrite Hr2, Hr1, <- app_assoc. done. }
  split.
  { intros sid Hne. simpl.
    rewrite (read_append_other _ _ _ _ sid Hai) by done.
    by rewrite (read_append_other _ _ _ _ sid Huser). }
  rewrite <- Hr1.
  repeat split; try (by subst); try done.
  intros cs s Hcs Hfirst Hs.
  destruct (reply_text_content _ _ Htext) as (cs' & Hcs' & Hval).
  rewrite Hcs in Hcs'. injection Hcs' as <-.
  subst a. simpl. rewrite Hval, Hfirst. by apply or_else_value.
Qed.

Lemma successful_turn_appends_user_then_assistant_witness :
  ∃ u a,
    read (storage (world_after
           (post_chat (env_answering (completion_of (Some "hi")))
              (hello "openai") empty_world))) "s1" = [u; a]
    ∧ role u = user ∧ content u = "hello"
    ∧ role a = assistant ∧ content a = "hi" ∧ provider a = Some "openai".
Proof.
  destruct (successful_turn_appends_user_then_assistant
              (env_answering (completion_of (Some "hi"))) (hello "openai") empty_world
              (world_after (post_chat (env_answering (completion_of (Some "hi")))
                              (hello "openai") empty_world))
              (res_json (ChatJson (mkMessage 1 "s1" assistant "hi" (Some "openai") 1))))
    as (request & u & a & calls & data & Hparse & Hread & _ & Hu1 & Hu2 & _
        & Ha1 & _ & Ha2 & _ & _ & _ & Hresp).
  - reflexivity.
  - reflexivity.
  - injection Hparse as <-. injection Hresp as <-.
    exists u, (mkMessage 1 "s1" assistant "hi" (Some "openai") 1).
    repeat split; [exact Hread | exact Hu1 | exact Hu2].
Defined.

(** ** C5 *)

(** A completion without a [choices] property: indexing it throws, the
    [catch] block answers, and the session keeps the user message only. *)
Lemma no_choices_run env body w request u st1 calls data :
  chatRequestSchema_parse body = inr request →
  append (storage w) (user_insert request) = inr (u, st1) →
  ProviderOutcome env (req_apiKey request)
    (conversationHistory (read st1 (req_sessionId request)))
    (req_provider request) calls (inr data) →
  choices data = None →
  post_chat env body w
  = (sent w st1 calls,
     inr (res_status_json 500
            (ErrorJson "Cannot read properties of undefined (reading '0')" None))).
Proof.
  intros Hparse Huser Hout Hcs.
  assert (Htext : reply_text data
                  = inl (Error "TypeError"
                           "Cannot read properties of undefined (reading '0')")).
  { unfold reply_text. by rewrite Hcs. }
  destruct (post_chat_run env body w) as (w' & r & Heq & Hrun).
  rewrite Heq.
  inversion Hrun; subst; same_result;
    try match goal with
        | H : req_provider _ ≠ _ |- _ =>
            apply ProviderOutcome_known in Hout; tauto
        | H : ProviderOutcome _ _ _ _ _ _ |- _ =>
            destruct (ProviderOutcome_functional _ _ _ _ _ _ _ _ Hout H);
            simplify_eq
        end; same_result.
  done.
Qed.

(** Where the completion has a [choices] array and no text at
    [choices[0].message.content], the turn succeeds with the sentinel. *)
Lemma missing_content_gives_sentinel env body w request u st1 calls data cs :
  chatRequestSchema_parse body = inr request →
  append (storage w) (user_insert request) = inr (u, st1) →
  ProviderOutcome env (req_apiKey request)
    (conversationHistory (read st1 (req_sessionId request)))
    (req_provider request) calls (inr data) →
  choices data = Some cs → first_content cs = None →
  ∃ w' a,
    post_chat env body w = (w', inr (res_json (ChatJson a)))
    ∧ content a = "No response received" ∧ role a = assistant
    ∧ read (storage w') (req_sessionId request)
      = read (storage w) (req_sessionId request) ++ [u; a].
Proof.
  intros Hparse Huser Hout Hcs Hnone.
  destruct (successful_run env body w request u st1 calls data cs)
    as (st2 & Heq & Hai); try done.
  { by rewrite Hnone. }
  eexists _, _. split; [exact Heq|]. rewrite Hnone. simpl.
  split; [done|]. split; [done|].
  apply read_append in Hai. apply read_append in Huser. simpl in *.
  rewrite Hnone in Hai. simpl in Hai.
  rewrite Hai, Huser, <- app_assoc. done.
Qed.

(** C5, at the input where the code departs from it: DeepSeek answers
    with status 200 and the JSON body [{}].  The response has no textual
    content, yet the turn fails: the reply is a status 500 with the
    [TypeError]'s message, and no assistant message is stored. *)
Theorem deepseek_body_without_choices_fails w :
  let run := post_chat (env_answering {| choices := None |}) (hello "deepseek") w in
  reply_of run
  = inr (res_status_json 500
           (ErrorJson "Cannot read properties of undefined (reading '0')" None))
  ∧ read (storage (world_after run)) "s1"
    = read (storage w) "s1"
        ++ [{| id := created (storage w); sessionId := "s1"; role := user;
               content := "hello"; provider := Some "deepseek";
               timestamp := created (storage w) |}].
Proof.
  intros run. subst run.
  pose (request := mkChatRequest "hello" "deepseek" "s1" (Some "sk-test")).
  destruct (append_accepts (storage w) (user_insert request) eq_refl) as [st1 Huser].
  rewrite (no_choices_run (env_answering {| choices := None |}) (hello "deepseek") w
             request _ st1
             [Fetch deepseek_url
                (deepseek_init (Some "sk-test")
                   (conversationHistory (read st1 "s1")))]
             {| choices := None |} eq_refl Huser).
  - unfold reply_of, world_after. simpl. split; [done|].
    apply (read_append _ (user_insert request) _ _ Huser).
  - exact (deepseek_called (env_answering {| choices := None |}) (Some "sk-test")
             (conversationHistory (read st1 "s1"))
             (mkFetchResponse true "OK" (inr {| choices := None |})) eq_refl eq_refl).
  - done.
Qed.

(** ** C9 *)

(** C9: the assistant message a successful [POST /api/chat] stores is
    the last of its session, and its content is never the empty string: it
    is [choices[0]?.message?.content] of the provider's completion, or the
    sentinel "No response received" when that is missing or empty. *)
Theorem assistant_content_never_empty env body w w' response :
  post_chat env body w = (w', inr response) → status response = 200 →
  ∃ request a calls history data cs,
    response = res_json (ChatJson a)
    ∧ chatRequestSchema_parse body = inr request
    ∧ last (read (storage w') (req_sessionId request)) = Some a
    ∧ role a = assistant
    ∧ ProviderOutcome env (req_apiKey request) history (req_provider request)
        calls (inr data)
    ∧ choices data = Some cs
    ∧ content a = or_else (first_content cs) "No response received"
    ∧ content a ≠ EmptyString
    ∧ (first_content cs = None ∨ first_content cs = Some EmptyString →
       content a = "No response received").
Proof.
  intros Heq Hstatus.
  destruct (successful_run_inv _ _ _ _ _ Heq Hstatus)
    as (request & u & st1 & calls & data & aiResponse & a & st2
        & Hparse & Huser & Hout & Htext & Hai & -> & ->).
  destruct (reply_text_content _ _ Htext) as (cs & Hcs & ->).
  pose proof (read_append _ _ _ _ Hai) as Hread. simpl in Hread.
  pose proof (append_message _ _ _ _ Hai) as ->.
  eexists request, _, calls, _, data, cs.
  split; [done|]. split; [done|]. split.
  { simpl. rewrite Hread. apply last_snoc. }
  split; [done|]. split; [exact Hout|]. split; [done|]. split; [done|]. split.
  - simpl. intros Hempty. apply falsy_empty in Hempty.
    by rewrite or_else_truthy in Hempty.
  - simpl. apply or_else_default.
Qed.

Lemma assistant_content_never_empty_witness :
  ∃ a,
    last (read (storage (world_after
            (post_chat (env_answering (completion_of (Some EmptyString)))
               (hello "deepseek") empty_world))) "s1") = Some a
    ∧ role a = assistant ∧ content a = "No response received".
Proof.
  destruct (assistant_content_never_empty
              (env_answering (completion_of (Some EmptyString)))
              (hello "deepseek") empty_world
              (world_after (post_chat (env_answering (completion_of (Some EmptyString)))
                              (hello "deepseek") empty_world))
              (res_json (ChatJson (mkMessage 1 "s1" assistant "No response received"
                                     (Some "deepseek") 1))))
    as (request & a & calls & history & data & cs & Hresp & Hparse & Hlast & Hrole
        & _ & _ & _ & _ & _).
  - reflexivity.
  - reflexivity.
  - injection Hparse as <-. injection Hresp as <-.
    exists (mkMessage 1 "s1" assistant "No response received" (Some "deepseek") 1).
    split; [exact Hlast|]. split; reflexivity.
Defined.

(** ** What a turn sends to the provider *)

Lemma ProviderOutcome_params env apiKey history provider calls result :
  ProviderOutcome env apiKey history provider calls result →
  length calls ≤ 1
  ∧ Forall (λ c, messages (call_params c) = history
                 ∧ max_tokens (call_params c) = 1000) calls.
Proof.
  intros H. split; [destruct H; simpl; lia|].
  apply ProviderOutcome_calls in H.
  eapply Forall_impl; [exact H|]. by intros c [-> | ->].
Qed.

Lemma ProviderOutcome_answered env apiKey history provider calls data :
  ProviderOutcome env apiKey history provider calls (inr data) →
  ∃ c, calls = [c] ∧ messages (call_params c) = history.
Proof. inversion 1; subst; eauto. Qed.

Lemma chat_run_calls env body w w' response :
  ChatRun env body w w' response →
  ∃ calls,
    outbox w' = outbox w ++ calls
    ∧ (calls = []
       ∨ ∃ request u st1 result,
           chatRequestSchema_parse body = inr request
           ∧ append (storage w) (user_insert request) = inr (u, st1)
           ∧ ProviderOutcome env (req_apiKey request)
               (conversationHistory (read st1 (req_sessionId request)))
               (req_provider request) calls result).
Proof.
  destruct 1; simpl;
    try (exists []; rewrite app_nil_r; by auto);
    exists calls; (split; [done|]); right; eexists _, _, _, _; eauto.
Qed.

(** ** C6 *)

(** C6 as stated fails in its last part: on the second of two turns on a
    fresh session the provider is sent three messages, not four; the fourth
    message of the session is the reply to that very call. *)
Lemma second_call_does_not_see_four_messages :
  let env := env_answering (completion_of (Some "hi")) in
  let w1 := world_after (post_chat env (hello "openai") empty_world) in
  let w2 := world_after (post_chat env (hello "openai") w1) in
  ¬ (∃ c, last (outbox w2) = Some c ∧ length (messages (call_params c)) = 4).
Proof.
  intros env w1 w2 (c & Hlast & Hlen).
  vm_compute in Hlast. injection Hlast as <-. vm_compute in Hlen. discriminate Hlen.
Qed.

(** C6, amended: whatever a [POST /api/chat] sends to the provider (at
    most one request) carries as its message list the whole transcript of
    the session read after the user message was appended, that message
    included, in order, each message cut down to role and content.  So on
    the second of two successive successful turns on one session the
    provider is sent the messages the session had before, the two messages
    of the first turn and the second user message; the reply to that call
    makes four new messages once the second turn is done. *)
Theorem provider_is_sent_whole_transcript :
  (∀ env body w,
     ∃ calls,
       outbox (world_after (post_chat env body w)) = outbox w ++ calls
       ∧ length calls ≤ 1
       ∧ Forall (λ c,
           ∃ request u st1,
             chatRequestSchema_parse body = inr request
             ∧ append (storage w) (user_insert request) = inr (u, st1)
             ∧ role u = user ∧ content u = req_message request
             ∧ messages (call_params c)
               = conversationHistory
                   (read (storage w) (req_sessionId request) ++ [u])) calls)
  ∧ (∀ env1 env2 body1 body2 w w1 w2 r1 r2 request1 request2,
       post_chat env1 body1 w = (w1, inr r1) → status r1 = 200 →
       post_chat env2 body2 w1 = (w2, inr r2) → status r2 = 200 →
       chatRequestSchema_parse body1 = inr request1 →
       chatRequestSchema_parse body2 = inr request2 →
       req_sessionId request1 = req_sessionId request2 →
       ∃ u1 a1 u2 a2 c1 c2,
         outbox w2 = outbox w ++ [c1; c2]
         ∧ messages (call_params c1)
           = conversationHistory (read (storage w) (req_sessionId request1) ++ [u1])
         ∧ messages (call_params c2)
           = conversationHistory
               (read (storage w) (req_sessionId request1) ++ [u1; a1; u2])
         ∧ read (storage w2) (req_sessionId request1)
           = read (storage w) (req_sessionId request1) ++ [u1; a1; u2; a2]
         ∧ map role [u1; a1; u2; a2] = [user; assistant; user; assistant]).
Proof.
  split.
  - intros env body w.
    destruct (post_chat_run env body w) as (w' & r & Heq & Hrun).
    rewrite Heq. unfold world_after. simpl.
    destruct (chat_run_calls _ _ _ _ _ Hrun)
      as (calls & Hbox & [-> | (request & u & st1 & result & Hparse & Huser & Hout)]).
    { exists []. split; [done|]. split; [simpl; lia|]. constructor. }
    exists calls. split; [done|].
    destruct (ProviderOutcome_params _ _ _ _ _ _ Hout) as [Hlen Hall].
    split; [done|].
    eapply Forall_impl; [exact Hall|]. intros c [Hm _].
    exists request, u, st1.
    pose proof (read_append _ _ _ _ Huser) as Hread. simpl in Hread.
    rewrite Hm, Hread.
    pose proof (append_message _ _ _ _ Huser) as ->. done.
  - intros env1 env2 body1 body2 w w1 w2 r1 r2 request1 request2
      Heq1 Hs1 Heq2 Hs2 Hp1 Hp2 Hsid.
    destruct (successful_run_inv _ _ _ _ _ Heq1 Hs1)
      as (q1 & u1 & st1 & calls1 & data1 & text1 & a1 & st2
          & Hq1 & Hu1 & Hout1 & _ & Ha1 & -> & ->).
    destruct (successful_run_inv _ _ _ _ _ Heq2 Hs2)
      as (q2 & u2 & st3 & calls2 & data2 & text2 & a2 & st4
          & Hq2 & Hu2 & Hout2 & _ & Ha2 & -> & ->).
    same_result.
    destruct (ProviderOutcome_answered _ _ _ _ _ _ Hout1) as (c1 & -> & Hc1).
    destruct (ProviderOutcome_answered _ _ _ _ _ _ Hout2) as (c2 & -> & Hc2).
    pose proof (append_message _ _ _ _ Hu1) as Hbu1.
    pose proof (append_message _ _ _ _ Ha1) as Hba1.
    pose proof (append_message _ _ _ _ Hu2) as Hbu2.
    pose proof (append_message _ _ _ _ Ha2) as Hba2.
    apply read_append in Hu1, Ha1, Hu2, Ha2. simpl in *.
    rewrite <- Hsid in *.
    exists u1, a1, u2, a2, c1, c2.
    split; [by rewrite <- app_assoc|].
    split; [by rewrite Hc1, Hu1|].
    split; [by rewrite Hc2, Hu2, Ha1, Hu1, <- !app_assoc|].
    split; [by rewrite Ha2, Hu2, Ha1, Hu1, <- !app_assoc|].
    by subst.
Qed.

Lemma provider_is_sent_whole_transcript_witness :
  let env := env_answering (completion_of (Some "hi")) in
  let w1 := world_after (post_chat env (hello "openai") empty_world) in
  let w2 := world_after (post_chat env (hello "deepseek") w1) in
  ∃ c1 c2,
    outbox w2 = [c1; c2]
    ∧ map chat_role (messages (call_params c2)) = [user; assistant; user]
    ∧ map role (read (storage w2) "s1") = [user; assistant; user; assistant].
Proof.
  intros env w1 w2.
  destruct (proj2 provider_is_sent_whole_transcript
              env env (hello "openai") (hello "deepseek") empty_world w1 w2
              (res_json (ChatJson (mkMessage 1 "s1" assistant "hi" (Some "openai") 1)))
              (res_json (ChatJson (mkMessage 3 "s1" assistant "hi" (Some "deepseek") 3)))
              (mkChatRequest "hello" "openai" "s1" (Some "sk-test"))
              (mkChatRequest "hello" "deepseek" "s1" (Some "sk-test")))
    as (u1 & a1 & u2 & a2 & c1 & c2 & Hbox & _ & Hc2 & Hread & Hroles).
  - reflexivity.
  - reflexivity.
  - reflexivity.
  - reflexivity.
  - reflexivity.
  - reflexivity.
  - reflexivity.
  - exists c1, c2. split; [exact Hbox|].
    cbn [req_sessionId] in Hc2, Hread.
    change (read (storage empty_world) "s1") with (@nil Message) in Hc2, Hread.
    injection Hroles as Hr1 Hr2 Hr3 Hr4.
    split.
    + rewrite Hc2. simpl. rewrite Hr1, Hr2, Hr3. reflexivity.
    + rewrite Hread. simpl. rewrite Hr1, Hr2, Hr3, Hr4. reflexivity.
Defined.

(** ** C7 *)

Lemma ProviderOutcome_one_call env apiKey history provider calls result :
  ProviderOutcome env apiKey history provider calls result →
  (provider = "openai" → openai_new env apiKey = None) →
  ∃ c, calls = [c] ∧ max_tokens (call_params c) = 1000.
Proof.
  destruct 1; intros Hnew; eauto.
  specialize (Hnew eq_refl). congruence.
Qed.

(** C7: every request a [POST /api/chat] sends to a provider asks for at
    most 1000 tokens, whatever the body of the request, the stored
    transcript and the providers are; and a request is sent: once the body
    is accepted and the user message stored, a turn for "openai" (with the
    client constructed) or for "deepseek" sends exactly one request, with
    [max_tokens] 1000. *)
Theorem max_tokens_is_1000 :
  (∀ env body w,
     ∃ calls,
       outbox (world_after (post_chat env body w)) = outbox w ++ calls
       ∧ Forall (λ c, max_tokens (call_params c) = 1000) calls)
  ∧ (∀ env body w request u st1,
       chatRequestSchema_parse body = inr request →
       append (storage w) (user_insert request) = inr (u, st1) →
       (req_provider request = "openai"
        ∧ openai_new env (req_apiKey request) = None)
       ∨ req_provider request = "deepseek" →
       ∃ c,
         outbox (world_after (post_chat env body w)) = outbox w ++ [c]
         ∧ max_tokens (call_params c) = 1000).
Proof.
  split.
  - intros env body w.
    destruct (post_chat_run env body w) as (w' & r & Heq & Hrun).
    rewrite Heq. unfold world_after. simpl.
    destruct (chat_run_calls _ _ _ _ _ Hrun)
      as (calls & Hbox & [-> | (request & u & st1 & result & _ & _ & Hout)]).
    { exists []. split; [done|]. constructor. }
    exists calls. split; [done|].
    destruct (ProviderOutcome_params _ _ _ _ _ _ Hout) as [_ Hall].
    eapply Forall_impl; [exact Hall|]. by intros c [_ ?].
  - intros env body w request u st1 Hparse Huser Hknown.
    destruct (post_chat_run env body w) as (w' & r & Heq & Hrun).
    rewrite Heq. unfold world_after. simpl.
    assert (Hnew : req_provider request = "openai" →
                   openai_new env (req_apiKey request) = None).
    { intros Hp. destruct Hknown as [[_ ?]|Hd]; [done|]. congruence. }
    inversion Hrun; subst; same_result;
      try (exfalso; destruct Hknown as [[? _]|?]; congruence);
      match goal with
      | H : ProviderOutcome _ _ _ _ _ _ |- _ =>
          destruct (ProviderOutcome_one_call _ _ _ _ _ _ H Hnew) as (c & -> & Hc);
          exists c; split; [reflexivity | exact Hc]
      end.
Qed.

Lemma max_tokens_is_1000_witness :
  (∃ c,
     outbox (world_after (post_chat (env_answering (completion_of (Some "hi")))
                            (hello "openai") empty_world))
     = outbox empty_world ++ [c]
     ∧ max_tokens (call_params c) = 1000)
  ∧ (∃ c,
       outbox (world_after (post_chat (env_status "Unauthorized")
                              (hello "deepseek") empty_world))
       = outbox empty_world ++ [c]
       ∧ max_tokens (call_params c) = 1000).
Proof.
  split.
  - apply (proj2 max_tokens_is_1000
             (env_answering (completion_of (Some "hi"))) (hello "openai") empty_world
             (mkChatRequest "hello" "openai" "s1" (Some "sk-test"))
             (mkMessage 0 "s1" user "hello" (Some "openai") 0)
             (mkStorage
                {["s1" := [mkMessage 0 "s1" user "hello" (Some "openai") 0]]} 1)).
    + reflexivity.
    + reflexivity.
    + left. split; reflexivity.
  - apply (proj2 max_tokens_is_1000
             (env_status "Unauthorized") (hello "deepseek") empty_world
             (mkChatRequest "hello" "deepseek" "s1" (Some "sk-test"))
             (mkMessage 0 "s1" user "hello" (Some "deepseek") 0)
             (mkStorage
                {["s1" := [mkMessage 0 "s1" user "hello" (Some "deepseek") 0]]} 1)).
    + reflexivity.
    + reflexivity.
    + right. reflexivity.
Defined.

(** ** C8 *)

Lemma invalid_request_run env body w e :
  chatRequestSchema_parse body = inl e →
  post_chat env body w = (w, inr (chat_catch e)).
Proof.
  intros Hparse. unfold post_chat, try_catch, chat_try, bind, await.
  by rewrite Hparse.
Qed.

Lemma user_refused_run env body w request e :
  chatRequestSchema_parse body = inr request →
  append (storage w) (user_insert request) = inl e →
  post_chat env body w = (w, inr (chat_catch e)).
Proof.
  intros Hparse Huser.
  unfold post_chat, try_catch, chat_try, bind, await, createMessage.
  rewrite Hparse. simpl.
  change (mkInsert (req_message request) user (Some (req_provider request))
            (req_sessionId request)) with (user_insert request).
  by rewrite Huser.
Qed.

(** C8: a [POST /api/chat] whose message is empty, or is white space
    only, fails as a refusal of its input (the [ZodError] of the request
    schema, or the [ValidationError] of the store's first [append]) and
    leaves the world as it was: nothing is stored and no provider is
    called. *)
Theorem blank_message_is_refused_before_storage env body w m :
  body_message body = Some m → falsy (trim m) = true →
  ∃ e,
    post_chat env body w = (w, inr (chat_catch e))
    ∧ is_validation_error e = true.
Proof.
  intros Hm Hblank.
  destruct (chatRequestSchema_parse body) as [e|request] eqn:Hparse.
  - exists e. split; [by apply invalid_request_run|].
    by destruct (parse_refuses _ _ Hparse) as [issues ->].
  - destruct (parse_fields _ _ Hparse) as (Hmsg & _).
    rewrite Hm in Hmsg. injection Hmsg as ->.
    destruct (append_refuses (storage w) (user_insert request) Hblank) as [msg Hno].
    eexists. split; [by eapply user_refused_run|]. done.
Qed.

Lemma blank_message_is_refused_before_storage_witness :
  let blank := {| body_message := Some "   "; body_provider := Some "openai";
                  body_sessionId := Some "s1"; body_apiKey := Some "sk-test";
                  body_content := None |} in
  ∃ e,
    post_chat (env_answering (completion_of (Some "hi"))) blank empty_world
    = (empty_world, inr (chat_catch e))
    ∧ is_validation_error e = true.
Proof.
  intros blank.
  apply (blank_message_is_refused_before_storage
           (env_answering (completion_of (Some "hi"))) blank empty_world "   ").
  - reflexivity.
  - reflexivity.
Defined.

(** ** C10 *)

Lemma ai_response_not_routed env b :
  dispatch (registerRoutes env)
    {| method := POST; url := "/api/ai-response"; body := b |} = None.
Proof. reflexivity. Qed.

(** C10: a chat turn of the page with the provider "puter" sends nothing
    to [POST /api/chat].  The page calls Puter with the cached history and
    the new message and, when that succeeds, posts the reply's content (no
    user message) to [POST /api/ai-response], which none of the routes of
    [registerRoutes] answers.  As far as these routes go the turn leaves
    the store as it was: no user message is appended, and the session does
    not gain the two messages of a turn. *)
Theorem puter_turn_bypasses_chat_route env browser sid chatRequest w :
  req_provider chatRequest = "puter" →
  (∀ r, ApiRequest r ∈ mutationFn browser sid chatRequest →
     method r = POST ∧ url r = "/api/ai-response"
     ∧ url r ≠ "/api/chat"
     ∧ body_message (body r) = None
     ∧ (∃ response history,
          puter_chat browser history "gpt-4o" 1000 = inr response
          ∧ body_content (body r) = Some (aiContent response))
     ∧ dispatch (registerRoutes env) r = None)
  ∧ (∃ responses,
       chat_turn env browser sid chatRequest w = (w, inr responses)
       ∧ Forall (λ response, response = None) responses)
  ∧ (∀ s, read (storage (world_after (chat_turn env browser sid chatRequest w))) s
          = read (storage w) s).
Proof.
  intros Hp.
  assert (Hturn : ∃ responses,
            chat_turn env browser sid chatRequest w = (w, inr responses)
            ∧ Forall (λ response, response = None) responses).
  { unfold chat_turn, mutationFn. rewrite Hp. simpl.
    destruct (puter_chat browser _ "gpt-4o" 1000) as [e|response]; simpl.
    - exists []. split; [done|]. constructor.
    - exists [None]. split; [done|]. repeat constructor. }
  split; [|split; [exact Hturn|]].
  - intros r Hin. unfold mutationFn in Hin. rewrite Hp in Hin. simpl in Hin.
    apply elem_of_cons in Hin as [Hin|Hin]; [done|].
    destruct (puter_chat browser _ "gpt-4o" 1000) as [e|response] eqn:Hchat.
    { by apply elem_of_nil in Hin. }
    apply list_elem_of_singleton in Hin. injection Hin as ->. simpl.
    repeat split; try done. eauto.
  - intros s. destruct Hturn as (responses & -> & _). done.
Qed.

Lemma puter_turn_bypasses_chat_route_witness :
  let browser := {| cached_messages := None;
                    puter_chat := λ _ _ _,
                      inr {| puter_content := Some "hi";
                             puter_toString := "[object Object]" |} |} in
  let chatRequest := mkChatRequest "hello" "puter" "s1" None in
  mutationFn browser "s1" chatRequest
  = [PuterChat [mkChat user "hello"] "gpt-4o" 1000;
     ApiRequest {| method := POST; url := "/api/ai-response";
                   body := {| body_message := None; body_provider := Some "puter";
                              body_sessionId := Some "s1"; body_apiKey := None;
                              body_content := Some "hi" |} |}]
  ∧ ∀ s, read (storage (world_after
                (chat_turn (env_answering (completion_of (Some "hi")))
                   browser "s1" chatRequest empty_world))) s
         = read (storage empty_world) s.
Proof.
  intros browser chatRequest.
  split; [reflexivity|].
  destruct (puter_turn_bypasses_chat_route
              (env_answering (completion_of (Some "hi"))) browser "s1" chatRequest
              empty_world eq_refl) as (_ & _ & Hread).
  exact Hread.
Defined.

(** * Further properties *)

(** ** Strings: reversal, [trim] and the segments of a path *)

Lemma string_app_cons (x : ascii) (a b : string) :
  String x a +:+ b = String x (a +:+ b).
Proof. reflexivity. Qed.

Lemma string_app_assoc (a b c : string) : (a +:+ b) +:+ c = a +:+ (b +:+ c).
Proof.
  induction a as [|x a IH]; [done|]. rewrite !string_app_cons. by f_equal.
Qed.

Lemma string_app_empty (a : string) : a +:+ EmptyString = a.
Proof.
  induction a as [|x a IH]; [done|]. rewrite string_app_cons. by f_equal.
Qed.

Lemma rev_app_append (s1 s2 : string) :
  String.rev_app s1 s2 = String.rev s1 +:+ s2.
Proof.
  unfold String.rev. revert s2.
  induction s1 as [|c s1 IH]; intros s2; [done|].
  change (String.rev_app s1 (String c s2)
          = String.rev_app s1 (String c EmptyString) +:+ s2).
  rewrite (IH (String c s2)), (IH (String c EmptyString)).
  by rewrite string_app_assoc.
Qed.

Lemma rev_cons (c : ascii) (s : string) :
  String.rev (String c s) = String.rev s +:+ String c EmptyString.
Proof. apply (rev_app_append s (String c EmptyString)). Qed.

Lemma rev_append (a b : string) :
  String.rev (a +:+ b) = String.rev b +:+ String.rev a.
Proof.
  induction a as [|c a IH].
  - change (String.rev b = String.rev b +:+ EmptyString).
    by rewrite string_app_empty.
  - by rewrite string_app_cons, !rev_cons, IH, string_app_assoc.
Qed.

Lemma rev_involutive (s : string) : String.rev (String.rev s) = s.
Proof.
  induction s as [|c s IH]; [done|].
  by rewrite rev_cons, rev_append, IH.
Qed.

Lemma strip_split backwards s rest :
  strip backwards s = Some rest →
  String.length rest < String.length s
  ∧ ∃ ws, ws ≠ EmptyString ∧ s = ws +:+ rest.
Proof.
  unfold strip.
  destruct s as [|a [|b [|c s]]];
    repeat match goal with
      | |- context [if ?x then _ else _] => destruct x
      end;
    intros [= <-]; simpl;
    (split; [lia|]).
  all: first
    [ by exists (String a EmptyString)
    | by exists (String a (String b EmptyString))
    | by exists (String a (String b (String c EmptyString))) ].
Qed.

Lemma trim_from_unfold backwards s :
  trim_from backwards s
  = match strip backwards s with
    | Some rest => trim_from backwards rest
    | None => s
    end.
Proof.
  destruct s as [|a rest1]; [done|]. cbn [trim_from strip].
  destruct (is_whitespace a); [done|].
  destruct rest1 as [|b rest2]; [done|].
  destruct (if backwards then _ else _); [done|].
  destruct rest2 as [|c rest3]; [done|].
  by destruct (if backwards then _ else _).
Qed.

Lemma trim_from_spec backwards s :
  strip backwards (trim_from backwards s) = None
  ∧ ∃ ws, s = ws +:+ trim_from backwards s.
Proof.
  remember (String.length s) as n eqn:Hn. revert s Hn.
  induction n as [n IH] using lt_wf_ind. intros s ->.
  rewrite trim_from_unfold.
  destruct (strip backwards s) as [rest|] eqn:Hstrip.
  - destruct (strip_split _ _ _ Hstrip) as (Hlen & ws & _ & ->).
    destruct (IH _ Hlen rest eq_refl) as (Hclean & ws' & Hws').
    split; [done|]. exists (ws +:+ ws').
    rewrite string_app_assoc. by rewrite <- Hws'.
  - split; [done|]. by exists EmptyString.
Qed.

Lemma trim_from_fixed backwards s :
  strip backwards s = None → trim_from backwards s = s.
Proof. intros H. by rewrite trim_from_unfold, H. Qed.

Lemma strip_prefix backwards a b rest :
  strip backwards a = Some rest →
  strip backwards (a +:+ b) = Some (rest +:+ b).
Proof.
  unfold strip.
  destruct a as [|x [|y [|z a]]]; rewrite ?string_app_cons;
    repeat match goal with
      | |- context [if ?c then _ else _] => destruct c
      end;
    intros [= <-]; reflexivity.
Qed.

Lemma starts_clean_prefix a b : starts_clean (a +:+ b) → starts_clean a.
Proof.
  unfold starts_clean. intros Hab.
  destruct (strip false a) as [rest|] eqn:Ha; [|done].
  by rewrite (strip_prefix _ _ b _ Ha) in Hab.
Qed.

Lemma rev_empty s : String.rev s = EmptyString → s = EmptyString.
Proof. intros H. by rewrite <- (rev_involutive s), H. Qed.

(** What [trim] gives has no white space at either end. *)
Lemma trim_clean s : starts_clean (trim s) ∧ ends_clean (trim s).
Proof.
  unfold trim, trimEnd, trimStart.
  set (t := trim_from false s).
  set (u := trim_from true (String.rev t)).
  destruct (trim_from_spec true (String.rev t)) as (Hu & ws & Hws). fold u in Hu, Hws.
  split.
  - assert (Ht : t = String.rev u +:+ String.rev ws).
    { by rewrite <- rev_append, <- Hws, rev_involutive. }
    apply (starts_clean_prefix _ (String.rev ws)). rewrite <- Ht.
    apply (trim_from_spec false s).
  - unfold ends_clean. by rewrite rev_involutive.
Qed.

Lemma trim_idempotent s : trim (trim s) = trim s.
Proof.
  destruct (trim_clean s) as [Hstart Hend].
  unfold trim at 1. unfold trimEnd, trimStart.
  rewrite (trim_from_fixed false _ Hstart), (trim_from_fixed true _ Hend).
  apply rev_involutive.
Qed.

Lemma plain_is_not_special c :
  is_plain c = true →
  Ascii.eqb c "/" = false ∧ Ascii.eqb c "?" = false ∧ Ascii.eqb c "#" = false.
Proof.
  intros Hc. repeat split.
  - destruct (Ascii.eqb_spec c "/") as [->|]; [by vm_compute in Hc|done].
  - destruct (Ascii.eqb_spec c "?") as [->|]; [by vm_compute in Hc|done].
  - destruct (Ascii.eqb_spec c "#") as [->|]; [by vm_compute in Hc|done].
Qed.

Lemma pathname_plain s : all_plain s = true → pathname s = s.
Proof.
  induction s as [|c s IH]; simpl; [done|].
  intros [Hc Hs]%andb_true_iff.
  destruct (plain_is_not_special _ Hc) as (_ & -> & ->). simpl.
  by rewrite IH.
Qed.

Lemma split_path_plain cur s :
  all_plain s = true →
  split_path cur s = [String.rev (String.rev_app s cur)].
Proof.
  revert cur. induction s as [|c s IH]; intros cur Hs; simpl; [done|].
  simpl in Hs. apply andb_true_iff in Hs as [Hc Hs].
  destruct (plain_is_not_special _ Hc) as (-> & _). by apply IH.
Qed.

Lemma segments_messages sid :
  plain_segment sid = true →
  segments ("/api/messages/" +:+ sid) = Some ["api"; "messages"; sid].
Proof.
  unfold plain_segment. intros [Hne Hs]%andb_true_iff.
  unfold segments.
  change (pathname ("/api/messages/" +:+ sid))
    with ("/api/messages/" +:+ pathname sid).
  rewrite (pathname_plain _ Hs).
  change (Some (drop_trailing_empty (split_path EmptyString ("api/messages/" +:+ sid)))
          = Some ["api"; "messages"; sid]).
  change (split_path EmptyString ("api/messages/" +:+ sid))
    with ("api" :: "messages" :: split_path EmptyString sid).
  rewrite (split_path_plain _ _ Hs).
  fold (String.rev sid). rewrite rev_involutive. simpl.
  by apply negb_true_iff in Hne as ->.
Qed.

Lemma dispatch_get_messages env sid b :
  plain_segment sid = true →
  dispatch (registerRoutes env)
    {| method := GET; url := "/api/messages/" +:+ sid; body := b |}
  = Some (get_messages sid).
Proof.
  intros Hsid.
  assert (Hne : falsy sid = false).
  { unfold plain_segment in Hsid.
    apply andb_true_iff in Hsid as [Hne _]. by apply negb_true_iff in Hne. }
  unfold dispatch, registerRoutes.
  cbn [method url body route_method route_pattern route_handler].
  rewrite (segments_messages _ Hsid). simpl. by rewrite Hne.
Qed.

Lemma dispatch_delete_messages env sid b :
  plain_segment sid = true →
  dispatch (registerRoutes env)
    {| method := DELETE; url := "/api/messages/" +:+ sid; body := b |}
  = Some (delete_messages sid).
Proof.
  intros Hsid.
  assert (Hne : falsy sid = false).
  { unfold plain_segment in Hsid.
    apply andb_true_iff in Hsid as [Hne _]. by apply negb_true_iff in Hne. }
  unfold dispatch, registerRoutes.
  cbn [method url body route_method route_pattern route_handler].
  rewrite (segments_messages _ Hsid). simpl. by rewrite Hne.
Qed.

Lemma dispatch_post_chat env b :
  dispatch (registerRoutes env) {| method := POST; url := "/api/chat"; body := b |}
  = Some (post_chat env b).
Proof. reflexivity. Qed.

Lemma read_clear st sid : read (clear st sid) sid = [].
Proof. unfold read, clear. simpl. by rewrite lookup_delete_eq. Qed.

Lemma read_clear_other st sid sid' :
  sid' ≠ sid → read (clear st sid) sid' = read st sid'.
Proof. intros Hne. unfold read, clear. simpl. by rewrite lookup_delete_ne. Qed.

(** ** The routes for listing and clearing a session *)

(** X1: [GET /api/messages/:sessionId] answers with status 200 and the
    transcript of exactly the session named in the path, in stored order,
    and changes nothing: no message is stored and no provider is called. *)
Theorem messages_route_lists_transcript env sid b w :
  plain_segment sid = true →
  serve env {| method := GET; url := "/api/messages/" +:+ sid; body := b |} w
  = (w, inr (Some (res_json (MessagesJson (read (storage w) sid))))).
Proof.
  intros Hsid. unfold serve. by rewrite (dispatch_get_messages _ _ _ Hsid).
Qed.

Lemma messages_route_lists_transcript_witness :
  let env := env_answering (completion_of (Some "hi")) in
  let w := world_after (post_chat env (hello "openai") empty_world) in
  serve env {| method := GET; url := "/api/messages/s1"; body := hello "openai" |} w
  = (w, inr (Some (res_json (MessagesJson
       [mkMessage 0 "s1" user "hello" (Some "openai") 0;
        mkMessage 1 "s1" assistant "hi" (Some "openai") 1])))).
Proof.
  intros env w.
  exact (messages_route_lists_transcript env "s1" (hello "openai") w eq_refl).
Defined.

(** X2: [DELETE /api/messages/:sessionId] answers with status 200 and
    [{ success: true }]; afterwards the session named in the path has no
    messages, every other session has the messages it had, and no provider
    was called. *)
Theorem clear_route_empties_session env sid b w :
  plain_segment sid = true →
  let run := serve env {| method := DELETE; url := "/api/messages/" +:+ sid;
                          body := b |} w in
  reply_of run = inr (Some (res_json SuccessJson))
  ∧ read (storage (world_after run)) sid = []
  ∧ (∀ other, other ≠ sid →
       read (storage (world_after run)) other = read (storage w) other)
  ∧ outbox (world_after run) = outbox w.
Proof.
  intros Hsid run. subst run. unfold serve.
  rewrite (dispatch_delete_messages _ _ _ Hsid).
  unfold reply_of, world_after. simpl.
  split; [done|]. split; [apply read_clear|]. split; [|done].
  intros other Hne. by apply read_clear_other.
Qed.

Lemma clear_route_empties_session_witness :
  let env := env_answering (completion_of (Some "hi")) in
  let w := world_after (post_chat env (hello "openai") empty_world) in
  length (read (storage w) "s1") = 2
  ∧ read (storage (world_after
        (serve env {| method := DELETE; url := "/api/messages/s1";
                      body := hello "openai" |} w))) "s1" = [].
Proof.
  intros env w. split; [reflexivity|].
  destruct (clear_route_empties_session env "s1" (hello "openai") w eq_refl)
    as (_ & Hread & _).
  exact Hread.
Defined.

(** X3: after a session was cleared through the route, the next
    [POST /api/chat] on it sends the provider one message only, the new
    user message: nothing of the cleared conversation is replayed. *)
Theorem clear_then_chat_restarts_history env sid b body request w :
  plain_segment sid = true →
  chatRequestSchema_parse body = inr request →
  req_sessionId request = sid →
  let w1 := world_after (serve env {| method := DELETE;
                                      url := "/api/messages/" +:+ sid;
                                      body := b |} w) in
  ∃ calls,
    outbox (world_after (post_chat env body w1)) = outbox w ++ calls
    ∧ length calls ≤ 1
    ∧ Forall (λ c, messages (call_params c)
                   = [{| chat_role := user; chat_content := req_message request |}])
        calls.
Proof.
  intros Hsid Hparse Hreq w1.
  assert (Hempty : read (storage w1) sid = [] ∧ outbox w1 = outbox w).
  { subst w1. unfold serve. rewrite (dispatch_delete_messages _ _ _ Hsid).
    unfold world_after. simpl. split; [apply read_clear|done]. }
  destruct Hempty as [Hempty Hbox].
  destruct (post_chat_run env body w1) as (w2 & r & Heq & Hrun).
  rewrite Heq. unfold world_after at 1. simpl.
  destruct (chat_run_calls _ _ _ _ _ Hrun)
    as (calls & Hcalls & [-> | (q & u & st1 & result & Hq & Huser & Hout)]).
  { exists []. rewrite Hcalls, Hbox. split; [done|]. split; [simpl; lia|constructor]. }
  exists calls. rewrite Hcalls, Hbox. split; [done|].
  destruct (ProviderOutcome_params _ _ _ _ _ _ Hout) as [Hlen Hall].
  split; [done|].
  eapply Forall_impl; [exact Hall|]. intros c [-> _].
  rewrite Hparse in Hq. injection Hq as <-.
  pose proof (read_append _ _ _ _ Huser) as Hread. simpl in Hread.
  rewrite Hreq in Hread. rewrite Hreq, Hread, Hempty.
  by rewrite (append_message _ _ _ _ Huser).
Qed.

Lemma clear_then_chat_restarts_history_witness :
  let env := env_answering (completion_of (Some "hi")) in
  let w := world_after (post_chat env (hello "openai") empty_world) in
  let w1 := world_after (serve env {| method := DELETE; url := "/api/messages/s1";
                                      body := hello "openai" |} w) in
  ∃ calls,
    outbox (world_after (post_chat env (hello "deepseek") w1)) = outbox w ++ calls
    ∧ length calls ≤ 1
    ∧ Forall (λ c, messages (call_params c)
                   = [{| chat_role := user; chat_content := "hello" |}]) calls.
Proof.
  intros env w w1.
  exact (clear_then_chat_restarts_history env "s1" (hello "openai") (hello "deepseek")
           (mkChatRequest "hello" "deepseek" "s1" (Some "sk-test")) w
           eq_refl eq_refl eq_refl).
Defined.

(** X4: what a successful [POST /api/chat] returns is what the list route
    then shows last: a [GET /api/messages/:sessionId] for the session of
    the request answers with the earlier transcript followed by the user
    message and the returned assistant message. *)
Theorem chat_then_list_round_trip env body w w' a request b :
  post_chat env body w = (w', inr (res_json (ChatJson a))) →
  chatRequestSchema_parse body = inr request →
  plain_segment (req_sessionId request) = true →
  ∃ u,
    serve env {| method := GET; url := "/api/messages/" +:+ req_sessionId request;
                 body := b |} w'
    = (w', inr (Some (res_json (MessagesJson
                       (read (storage w) (req_sessionId request) ++ [u; a])))))
    ∧ role u = user ∧ content u = req_message request.
Proof.
  intros Heq Hparse Hsid.
  destruct (successful_run_inv _ _ _ _ _ Heq eq_refl)
    as (q & u & st1 & calls & data & text & a' & st2
        & Hq & Huser & _ & _ & Hai & -> & [= <-]).
  rewrite Hparse in Hq. injection Hq as <-.
  exists u.
  unfold serve. rewrite (dispatch_get_messages _ _ _ Hsid).
  unfold bind, get_messages, try_catch, getMessages, ret.
  pose proof (read_append _ _ _ _ Huser) as Hr1.
  pose proof (read_append _ _ _ _ Hai) as Hr2. simpl in Hr1, Hr2.
  simpl. rewrite Hr2, Hr1, <- app_assoc.
  split; [done|]. by rewrite (append_message _ _ _ _ Huser).
Qed.

Lemma chat_then_list_round_trip_witness :
  let env := env_answering (completion_of (Some "hi")) in
  let w' := world_after (post_chat env (hello "openai") empty_world) in
  ∃ u,
    serve env {| method := GET; url := "/api/messages/s1"; body := hello "openai" |} w'
    = (w', inr (Some (res_json (MessagesJson
         (read (storage empty_world) "s1"
            ++ [u; mkMessage 1 "s1" assistant "hi" (Some "openai") 1])))))
    ∧ role u = user ∧ content u = "hello".
Proof.
  intros env w'.
  exact (chat_then_list_round_trip env (hello "openai") empty_world w'
           (mkMessage 1 "s1" assistant "hi" (Some "openai") 1)
           (mkChatRequest "hello" "openai" "s1" (Some "sk-test")) (hello "openai")
           eq_refl eq_refl eq_refl).
Defined.

(** ** More on [POST /api/chat] *)

(** X5: a [POST /api/chat] changes the transcript of no session but the
    one its body names, however the request ends. *)
Theorem chat_touches_one_session env body w sid :
  body_sessionId body ≠ Some sid →
  read (storage (world_after (post_chat env body w))) sid = read (storage w) sid.
Proof.
  intros Hother.
  destruct (post_chat_run env body w) as (w' & r & Heq & Hrun).
  rewrite Heq. unfold world_after. simpl.
  destruct (chat_run_transcript _ _ _ _ _ Hrun sid)
    as (news & Hread & [-> | (request & u & st1 & Hparse & -> & _)]).
  - by rewrite Hread, app_nil_r.
  - destruct (parse_fields _ _ Hparse) as (_ & _ & Hsid & _). congruence.
Qed.

Lemma chat_touches_one_session_witness :
  let env := env_answering (completion_of (Some "hi")) in
  let w := world_after (post_chat env (hello "openai") empty_world) in
  let other := {| body_message := Some "bonjour"; body_provider := Some "deepseek";
                  body_sessionId := Some "s2"; body_apiKey := Some "sk-other";
                  body_content := None |} in
  read (storage (world_after (post_chat env other w))) "s1" = read (storage w) "s1".
Proof.
  intros env w other.
  apply (chat_touches_one_session env other w "s1"). discriminate.
Defined.

(** X6: [POST /api/chat] always answers, and in one of two shapes: status
    200 with the stored assistant message, or status 400 or 500 with an
    [error] text.  A 400 always reads "Invalid request data" and lists
    the issues as [details]; a 500 has no [details]. *)
Theorem chat_always_answers env body w :
  ∃ response,
    reply_of (post_chat env body w) = inr response
    ∧ ((status response = 200 ∧ ∃ a, payload response = ChatJson a)
       ∨ (status response = 400
          ∧ ∃ issues, payload response
                      = ErrorJson "Invalid request data" (Some issues))
       ∨ (status response = 500 ∧ ∃ message, payload response = ErrorJson message None)).
Proof.
  destruct (post_chat_run env body w) as (w' & r & Heq & Hrun).
  exists r. rewrite Heq. split; [done|].
  assert (Hcatch : ∀ e,
    (status (chat_catch e) = 400
     ∧ ∃ issues, payload (chat_catch e) = ErrorJson "Invalid request data" (Some issues))
    ∨ (status (chat_catch e) = 500
       ∧ ∃ message, payload (chat_catch e) = ErrorJson message None)).
  { intros [issues|name message|value]; simpl; eauto. }
  inversion Hrun; subst; try (right; apply Hcatch).
  left. simpl. eauto.
Qed.

Lemma ProviderOutcome_shape env apiKey history provider calls result :
  ProviderOutcome env apiKey history provider calls result →
  Forall (λ c,
    (provider = "openai" ∧ c = OpenAICreate apiKey (openai_params history))
    ∨ (provider = "deepseek"
       ∧ c = Fetch deepseek_url (deepseek_init apiKey history))) calls.
Proof.
  destruct 1; repeat (apply Forall_cons_2; [auto|]); apply Forall_nil_2.
Qed.

(** X7: whatever a [POST /api/chat] sends goes to the provider the
    request names and to no other: for "openai" a completion request on the
    client made with the request's key, with model "gpt-5"; for "deepseek"
    a [POST] to the DeepSeek endpoint with model "deepseek-chat" and the key
    in the [Authorization] header.  The key of the request appears in no
    other place. *)
Theorem calls_go_to_the_named_provider env body w :
  ∃ calls,
    outbox (world_after (post_chat env body w)) = outbox w ++ calls
    ∧ Forall (λ c,
        ∃ request history,
          chatRequestSchema_parse body = inr request
          ∧ ((req_provider request = "openai"
              ∧ c = OpenAICreate (req_apiKey request)
                      {| model := "gpt-5"; messages := history; max_tokens := 1000 |})
             ∨ (req_provider request = "deepseek"
                ∧ c = Fetch "https://api.deepseek.com/chat/completions"
                        {| init_method := "POST";
                           init_headers :=
                             [("Content-Type", "application/json");
                              ("Authorization",
                               "Bearer " +:+ interpolate (req_apiKey request))];
                           init_body := {| model := "deepseek-chat";
                                           messages := history;
                                           max_tokens := 1000 |} |}))) calls.
Proof.
  destruct (post_chat_run env body w) as (w' & r & Heq & Hrun).
  rewrite Heq. unfold world_after. simpl.
  destruct (chat_run_calls _ _ _ _ _ Hrun)
    as (calls & Hbox & [-> | (request & u & st1 & result & Hparse & _ & Hout)]).
  { exists []. split; [done|]. constructor. }
  exists calls. split; [done|].
  eapply Forall_impl; [exact (ProviderOutcome_shape _ _ _ _ _ _ Hout)|].
  intros c Hc. exists request, (conversationHistory (read st1 (req_sessionId request))).
  split; [done|]. exact Hc.
Qed.

(** X9: no provider is contacted unless the body passes the schema and
    names "openai" or "deepseek": a refused body and a request for any
    other provider leave without a single outgoing request. *)
Theorem only_served_providers_are_contacted env body w :
  (∀ request, chatRequestSchema_parse body = inr request →
     req_provider request ≠ "openai" ∧ req_provider request ≠ "deepseek") →
  outbox (world_after (post_chat env body w)) = outbox w.
Proof.
  intros Hnone.
  destruct (post_chat_run env body w) as (w' & r & Heq & Hrun).
  rewrite Heq. unfold world_after. simpl.
  destruct (chat_run_calls _ _ _ _ _ Hrun)
    as (calls & Hbox & [-> | (request & u & st1 & result & Hparse & _ & Hout)]).
  { by rewrite Hbox, app_nil_r. }
  destruct (Hnone _ Hparse). apply ProviderOutcome_known in Hout. tauto.
Qed.

Lemma only_served_providers_are_contacted_witness :
  outbox (world_after (post_chat (env_answering (completion_of (Some "hi")))
                         (hello "puter") empty_world)) = outbox empty_world.
Proof.
  apply (only_served_providers_are_contacted
           (env_answering (completion_of (Some "hi"))) (hello "puter") empty_world).
  intros request Hparse. injection Hparse as <-. split; discriminate.
Defined.

(** X10: a turn that failed at the provider and is sent again stores the
    user message a second time.  After the retry succeeds the session has
    gained the user message twice and then the reply, and the provider of
    the retry was sent both copies. *)
Theorem retry_after_failure_appends_user_message_again
    env1 env2 body w request u1 st1 calls1 e w2 a :
  chatRequestSchema_parse body = inr request →
  append (storage w) (user_insert request) = inr (u1, st1) →
  ProviderOutcome env1 (req_apiKey request)
    (conversationHistory (read st1 (req_sessionId request)))
    (req_provider request) calls1 (inl e) →
  post_chat env2 body (world_after (post_chat env1 body w))
  = (w2, inr (res_json (ChatJson a))) →
  ∃ u2 c,
    read (storage w2) (req_sessionId request)
    = read (storage w) (req_sessionId request) ++ [u1; u2; a]
    ∧ role u1 = user ∧ role u2 = user
    ∧ content u1 = req_message request ∧ content u2 = req_message request
    ∧ last (outbox w2) = Some c
    ∧ messages (call_params c)
      = conversationHistory (read (storage w) (req_sessionId request) ++ [u1; u2]).
Proof.
  intros Hparse Huser Hfail Hretry.
  rewrite (provider_failure_run _ _ _ _ _ _ _ _ Hparse Huser Hfail) in Hretry.
  unfold world_after in Hretry. simpl in Hretry.
  destruct (successful_run_inv _ _ _ _ _ Hretry eq_refl)
    as (q & u2 & st2 & calls2 & data & text & a' & st3
        & Hq & Hu2 & Hout & _ & Hai & -> & [= <-]).
  rewrite Hparse in Hq. injection Hq as <-.
  destruct (ProviderOutcome_answered _ _ _ _ _ _ Hout) as (c & -> & Hc).
  exists u2, c.
  pose proof (append_message _ _ _ _ Huser) as Hb1.
  pose proof (append_message _ _ _ _ Hu2) as Hb2.
  apply read_append in Huser, Hu2, Hai. simpl in *.
  split; [by rewrite Hai, Hu2, Huser, <- !app_assoc|].
  split; [by subst|]. split; [by subst|]. split; [by subst|]. split; [by subst|].
  split.
  - unfold sent. simpl. apply last_snoc.
  - by rewrite Hc, Hu2, Huser, <- app_assoc.
Qed.

Lemma retry_after_failure_appends_user_message_again_witness :
  let down := env_unreachable "fetch failed" in
  let up := env_answering (completion_of (Some "hi")) in
  let w2 := world_after (post_chat up (hello "openai")
                           (world_after (post_chat down (hello "openai") empty_world))) in
  map content (read (storage w2) "s1") = ["hello"; "hello"; "hi"].
Proof.
  intros down up w2.
  destruct (retry_after_failure_appends_user_message_again
              down up (hello "openai") empty_world
              (mkChatRequest "hello" "openai" "s1" (Some "sk-test"))
              (mkMessage 0 "s1" user "hello" (Some "openai") 0)
              (mkStorage
                 {["s1" := [mkMessage 0 "s1" user "hello" (Some "openai") 0]]} 1)
              [OpenAICreate (Some "sk-test") (openai_params [mkChat user "hello"])]
              (Error "Error" "fetch failed") w2
              (mkMessage 2 "s1" assistant "hi" (Some "openai") 2))
    as (u2 & c & Hread & _ & _ & Hc1 & Hc2 & _).
  - reflexivity.
  - reflexivity.
  - exact (openai_called down (Some "sk-test") [mkChat user "hello"] eq_refl).
  - reflexivity.
  - cbn [req_sessionId req_message] in Hread, Hc2.
    change (read (storage empty_world) "s1") with (@nil Message) in Hread.
    rewrite Hread. simpl. rewrite Hc2. reflexivity.
Defined.

(** ** Which requests the routes answer *)



(** ** The chat page: sending *)

(** X12: the Send button is enabled exactly when [handleSendMessage]
    would send: [canSend] holds if and only if the handler reaches
    [sendMessageMutation.mutate]. *)
Theorem send_button_matches_handler st :
  Chat.canSend st = true ↔ ∃ chatRequest, Chat.handleSendMessage st = Chat.Mutate chatRequest.
Proof.
  unfold Chat.canSend, Chat.handleSendMessage.
  destruct (falsy (trim (Chat.st_message st))), (Chat.st_isPending st),
    (bool_decide (Chat.st_provider st = Chat.puter)),
    (falsy (trim (Chat.st_apiKey st))); simpl;
    (split; [intros H; try discriminate H; eauto
            | intros [r H]; try discriminate H; done]).
Qed.

(** X13: the message the page sends is the typed message trimmed: it is
    not empty, has no white space at either end, and trimming it again
    changes nothing; the request names the page's session and a provider of
    the [Provider] type. *)
Theorem sent_message_is_trimmed st chatRequest :
  Chat.handleSendMessage st = Chat.Mutate chatRequest →
  req_message chatRequest = trim (Chat.st_message st)
  ∧ falsy (req_message chatRequest) = false
  ∧ trim (req_message chatRequest) = req_message chatRequest
  ∧ starts_clean (req_message chatRequest)
  ∧ ends_clean (req_message chatRequest)
  ∧ req_sessionId chatRequest = Chat.st_sessionId st
  ∧ req_provider chatRequest ∈ provider_enum.
Proof.
  unfold Chat.handleSendMessage.
  destruct (falsy (trim (Chat.st_message st))) eqn:Hm; [done|].
  destruct (Chat.st_isPending st); [done|]. simpl.
  destruct (_ && _); [done|]. intros [= <-]. simpl.
  destruct (trim_clean (Chat.st_message st)) as [H1 H2].
  repeat split; try done.
  - apply trim_idempotent.
  - destruct (Chat.st_provider st); simpl; unfold provider_enum; set_solver.
Qed.

Lemma sent_message_is_trimmed_witness :
  let st := {| Chat.st_message := nbsp +:+ " hello there " +:+ nbsp;
               Chat.st_provider := Chat.openai;
               Chat.st_apiKey := "sk-test"; Chat.st_sessionId := "session-1730000000000";
               Chat.st_isPending := false; Chat.st_sessionStorage := ∅ |} in
  ∃ chatRequest,
    Chat.handleSendMessage st = Chat.Mutate chatRequest
    ∧ req_message chatRequest = "hello there".
Proof.
  intros st.
  exists (mkChatRequest "hello there" "openai" "session-1730000000000" (Some "sk-test")).
  split; [reflexivity|].
  destruct (sent_message_is_trimmed st
              (mkChatRequest "hello there" "openai" "session-1730000000000"
                 (Some "sk-test")) eq_refl) as (Hm & _).
  exact Hm.
Defined.

(** X14: with the provider "puter" the key in the page's state goes
    nowhere: the request [handleSendMessage] builds has no [apiKey], the
    call to Puter is given none, and no request the page issues carries
    one, whatever was typed into the key field before. *)
Theorem puter_request_never_carries_key browser st :
  Chat.st_provider st = Chat.puter →
  (∀ chatRequest, Chat.handleSendMessage st = Chat.Mutate chatRequest →
     req_apiKey chatRequest = None ∧ req_provider chatRequest = "puter")
  ∧ (∀ r, ApiRequest r ∈ Chat.send_actions browser st →
       body_apiKey (body r) = None ∧ url r = "/api/ai-response").
Proof.
  intros Hp.
  assert (Hreq : ∀ chatRequest, Chat.handleSendMessage st = Chat.Mutate chatRequest →
            req_apiKey chatRequest = None ∧ req_provider chatRequest = "puter").
  { unfold Chat.handleSendMessage. rewrite Hp. simpl.
    destruct (_ || _); [done|]. by intros ? [= <-]. }
  split; [exact Hreq|].
  intros r Hin. unfold Chat.send_actions in Hin.
  destruct (Chat.handleSendMessage st) as [| |chatRequest] eqn:Hsend;
    try (by apply elem_of_nil in Hin).
  destruct (Hreq _ eq_refl) as [_ Hname].
  unfold mutationFn in Hin. rewrite Hname in Hin. simpl in Hin.
  apply elem_of_cons in Hin as [Hin|Hin]; [done|].
  destruct (puter_chat browser _ _ _); [by apply elem_of_nil in Hin|].
  apply list_elem_of_singleton in Hin. by injection Hin as ->.
Qed.

Lemma puter_request_never_carries_key_witness :
  let st := {| Chat.st_message := "hello"; Chat.st_provider := Chat.puter;
               Chat.st_apiKey := "sk-openai-secret";
               Chat.st_sessionId := "session-1730000000000";
               Chat.st_isPending := false; Chat.st_sessionStorage := ∅ |} in
  Chat.handleSendMessage st
  = Chat.Mutate (mkChatRequest "hello" "puter" "session-1730000000000" None)
  ∧ ∀ chatRequest, Chat.handleSendMessage st = Chat.Mutate chatRequest →
      req_apiKey chatRequest = None ∧ req_provider chatRequest = "puter".
Proof.
  intros st. split; [reflexivity|].
  exact (proj1 (puter_request_never_carries_key
                  {| cached_messages := None; puter_chat := λ _ _ _, inl (Thrown "x") |}
                  st eq_refl)).
Defined.

(** X15: for "openai" and "deepseek" a key is required and passed on as
    typed.  With a key that is empty or white space only, a message that
    could otherwise be sent makes the page show "API key is required for
    this provider" and issue no request; otherwise the request carries the
    key exactly as it stands in the field, not trimmed. *)
Theorem key_is_required_and_sent_as_typed browser st :
  Chat.st_provider st ≠ Chat.puter →
  falsy (trim (Chat.st_message st)) = false → Chat.st_isPending st = false →
  (falsy (trim (Chat.st_apiKey st)) = true →
     Chat.handleSendMessage st
     = Chat.Toast "Error" "API key is required for this provider"
     ∧ Chat.send_actions browser st = [])
  ∧ (falsy (trim (Chat.st_apiKey st)) = false →
       ∃ chatRequest,
         Chat.handleSendMessage st = Chat.Mutate chatRequest
         ∧ req_apiKey chatRequest = Some (Chat.st_apiKey st)).
Proof.
  intros Hp Hm Hpend.
  unfold Chat.send_actions, Chat.handleSendMessage.
  rewrite Hm, Hpend. simpl.
  rewrite bool_decide_eq_false_2 by done. simpl.
  split; intros ->; simpl; [done|].
  eexists. split; [done|]. simpl. by rewrite decide_False.
Qed.

Lemma key_is_required_and_sent_as_typed_witness :
  let st k := {| Chat.st_message := "hello"; Chat.st_provider := Chat.deepseek;
                 Chat.st_apiKey := k; Chat.st_sessionId := "session-1730000000000";
                 Chat.st_isPending := false; Chat.st_sessionStorage := ∅ |} in
  let browser := {| cached_messages := None;
                    puter_chat := λ _ _ _, inl (Thrown "x") |} in
  (∃ chatRequest,
     Chat.handleSendMessage (st " sk-test ") = Chat.Mutate chatRequest
     ∧ req_apiKey chatRequest = Some " sk-test ")
  ∧ Chat.handleSendMessage (st (nbsp +:+ " "))
    = Chat.Toast "Error" "API key is required for this provider".
Proof.
  intros st browser. split.
  - apply (proj2 (key_is_required_and_sent_as_typed browser (st " sk-test ")
                    ltac:(discriminate) eq_refl eq_refl)).
    reflexivity.
  - apply (proj1 (key_is_required_and_sent_as_typed browser (st (nbsp +:+ " "))
                    ltac:(discriminate) eq_refl eq_refl)).
    reflexivity.
Defined.

(** X16: for "openai" and "deepseek" a turn of the page is one request,
    [POST /api/chat] with the request as its body, and what it does to the
    server is what the chat route does with that body. *)
Theorem server_provider_turn_is_one_chat_post env browser st chatRequest w :
  Chat.handleSendMessage st = Chat.Mutate chatRequest →
  Chat.st_provider st ≠ Chat.puter →
  Chat.send_actions browser st
  = [ApiRequest {| method := POST; url := "/api/chat"; body := chat_body chatRequest |}]
  ∧ ∃ w' response,
      post_chat env (chat_body chatRequest) w = (w', inr response)
      ∧ deliver env (Chat.send_actions browser st) w = (w', inr [Some response]).
Proof.
  intros Hsend Hp.
  assert (Hname : req_provider chatRequest ≠ "puter").
  { unfold Chat.handleSendMessage in Hsend.
    destruct (_ || _); [done|]. destruct (_ && _); [done|].
    injection Hsend as <-. simpl. by destruct (Chat.st_provider st). }
  assert (Hactions : Chat.send_actions browser st
            = [ApiRequest {| method := POST; url := "/api/chat";
                             body := chat_body chatRequest |}]).
  { unfold Chat.send_actions. rewrite Hsend. unfold mutationFn.
    by rewrite decide_False. }
  split; [exact Hactions|].
  destruct (post_chat_run env (chat_body chatRequest) w) as (w' & r & Heq & _).
  exists w', r. split; [done|].
  rewrite Hactions. unfold deliver, serve, bind.
  rewrite dispatch_post_chat. unfold bind. by rewrite Heq.
Qed.

Lemma server_provider_turn_is_one_chat_post_witness :
  let st := {| Chat.st_message := "hello"; Chat.st_provider := Chat.openai;
               Chat.st_apiKey := "sk-test"; Chat.st_sessionId := "s1";
               Chat.st_isPending := false; Chat.st_sessionStorage := ∅ |} in
  let browser := {| cached_messages := None; puter_chat := λ _ _ _, inl (Thrown "x") |} in
  Chat.send_actions browser st
  = [ApiRequest {| method := POST; url := "/api/chat";
                   body := chat_body (mkChatRequest "hello" "openai" "s1"
                                        (Some "sk-test")) |}].
Proof.
  intros st browser.
  exact (proj1 (server_provider_turn_is_one_chat_post
                  (env_answering (completion_of (Some "hi"))) browser st
                  (mkChatRequest "hello" "openai" "s1" (Some "sk-test")) empty_world
                  eq_refl ltac:(discriminate))).
Defined.

(** X17: the two messages of a successful [POST /api/chat] are shown
    under "You" and under the name of the provider that was asked,
    "ChatGPT" for "openai" and "DeepSeek" for "deepseek"; the fallback name
    "Puter AI" is never shown for a reply stored by this route. *)
Theorem successful_turn_labels env body w w' response :
  post_chat env body w = (w', inr response) → status response = 200 →
  ∃ request u a,
    chatRequestSchema_parse body = inr request
    ∧ read (storage w') (req_sessionId request)
      = read (storage w) (req_sessionId request) ++ [u; a]
    ∧ Chat.author_label u = "You"
    ∧ ((req_provider request = "openai" ∧ Chat.author_label a = "ChatGPT")
       ∨ (req_provider request = "deepseek" ∧ Chat.author_label a = "DeepSeek")).
Proof.
  intros Heq Hstatus.
  destruct (successful_run_inv _ _ _ _ _ Heq Hstatus)
    as (request & u & st1 & calls & data & text & a & st2
        & Hparse & Huser & Hout & _ & Hai & -> & ->).
  exists request, u, a. split; [done|].
  pose proof (append_message _ _ _ _ Huser) as Hu.
  pose proof (append_message _ _ _ _ Hai) as Ha.
  apply read_append in Huser, Hai. simpl in *.
  split; [by rewrite Hai, Huser, <- app_assoc|].
  split; [by subst u|].
  destruct (ProviderOutcome_known _ _ _ _ _ _ Hout) as [Hp|Hp]; [left|right];
    (split; [done|]); subst a; unfold Chat.author_label; simpl; rewrite Hp; done.
Qed.

Lemma successful_turn_labels_witness :
  let w' := world_after (post_chat (env_answering (completion_of (Some "hi")))
                           (hello "deepseek") empty_world) in
  map Chat.author_label (read (storage w') "s1") = ["You"; "DeepSeek"].
Proof.
  intros w'.
  destruct (successful_turn_labels
              (env_answering (completion_of (Some "hi"))) (hello "deepseek")
              empty_world w'
              (res_json (ChatJson (mkMessage 1 "s1" assistant "hi" (Some "deepseek") 1)))
              eq_refl eq_refl)
    as (request & u & a & Hparse & Hread & Hu & [[Hp _]|[_ Ha]]).
  - injection Hparse as <-. discriminate Hp.
  - injection Hparse as <-. cbn [req_sessionId] in Hread.
    change (read (storage empty_world) "s1") with (@nil Message) in Hread.
    rewrite Hread. simpl. rewrite Hu, Ha. reflexivity.
Defined.

(** ** The chat page: the saved keys *)

Lemma key_slot_inj p q : Chat.key_slot p = Chat.key_slot q → p = q.
Proof. by destruct p, q. Qed.

Lemma effect_save_storage st slot :
  slot ≠ Chat.key_slot (Chat.st_provider st) →
  Chat.st_sessionStorage (Chat.effect_save st) !! slot
  = Chat.st_sessionStorage st !! slot.
Proof.
  intros Hne. unfold Chat.effect_save.
  destruct (falsy (Chat.st_apiKey st)); [done|]. simpl.
  by rewrite lookup_insert_ne.
Qed.

Lemma effect_save_saved st : Chat.key_saved (Chat.effect_save st).
Proof.
  unfold Chat.key_saved, Chat.effect_save.
  destruct (falsy (Chat.st_apiKey st)) eqn:Hk; simpl.
  - by rewrite Hk.
  - intros _. by rewrite lookup_insert_eq.
Qed.

Lemma effect_save_fields st :
  Chat.st_provider (Chat.effect_save st) = Chat.st_provider st
  ∧ Chat.st_apiKey (Chat.effect_save st) = Chat.st_apiKey st
  ∧ Chat.st_message (Chat.effect_save st) = Chat.st_message st
  ∧ Chat.st_sessionId (Chat.effect_save st) = Chat.st_sessionId st
  ∧ Chat.st_isPending (Chat.effect_save st) = Chat.st_isPending st.
Proof. unfold Chat.effect_save. by destruct (falsy (Chat.st_apiKey st)). Qed.

Lemma commit_saved pc ac st :
  pc || ac = true → Chat.key_saved (Chat.commit pc ac st).
Proof.
  intros Hc. unfold Chat.commit. rewrite Hc.
  destruct (if pc then Chat.effect_load st else None) as [s|];
    [|apply effect_save_saved].
  destruct (decide (s = Chat.st_apiKey st)); apply effect_save_saved.
Qed.

Lemma commit_provider pc ac st :
  Chat.st_provider (Chat.commit pc ac st) = Chat.st_provider st.
Proof.
  unfold Chat.commit.
  destruct (effect_save_fields st) as (Hp & _).
  destruct (if pc then Chat.effect_load st else None) as [s|];
    [destruct (decide (s = Chat.st_apiKey st))|];
    destruct (pc || ac); try done;
    try (by destruct (effect_save_fields (Chat.with_apiKey s (Chat.effect_save st)))
              as (-> & _));
    by destruct (effect_save_fields (Chat.with_apiKey s st)) as (-> & _).
Qed.

Lemma commit_other_slots pc ac st slot :
  slot ≠ Chat.key_slot (Chat.st_provider st) →
  Chat.st_sessionStorage (Chat.commit pc ac st) !! slot
  = Chat.st_sessionStorage st !! slot.
Proof.
  intros Hne. unfold Chat.commit.
  assert (H1 : Chat.st_sessionStorage (if pc || ac then Chat.effect_save st else st)
               !! slot = Chat.st_sessionStorage st !! slot).
  { destruct (pc || ac); [by apply effect_save_storage|done]. }
  assert (Hp : Chat.st_provider (if pc || ac then Chat.effect_save st else st)
               = Chat.st_provider st).
  { destruct (pc || ac); [apply effect_save_fields|done]. }
  destruct (if pc then Chat.effect_load st else None) as [s|]; [|done].
  destruct (decide (s = Chat.st_apiKey st)); [done|].
  rewrite effect_save_storage; [done|]. simpl. by rewrite Hp.
Qed.

(** X18: the saved key follows the field.  After the first render, and
    after any change of provider or of the key field that starts from a
    state where it holds, a key that stands in the field is the one saved
    in [sessionStorage] under [apiKey-<provider>] for the current
    provider. *)
Theorem key_field_is_saved st :
  Chat.key_saved (Chat.mount st)
  ∧ (∀ p, Chat.key_saved st → Chat.key_saved (Chat.setProvider p st))
  ∧ (∀ k, Chat.key_saved st → Chat.key_saved (Chat.setApiKey k st)).
Proof.
  split; [by apply commit_saved|]. split.
  - intros p Hst. unfold Chat.setProvider.
    destruct (decide (p = Chat.st_provider st)); [done|]. by apply commit_saved.
  - intros k Hst. unfold Chat.setApiKey.
    destruct (decide (k = Chat.st_apiKey st)); [done|]. by apply commit_saved.
Qed.

Lemma key_field_is_saved_witness :
  let st := Chat.setApiKey "sk-test"
              (Chat.setProvider Chat.openai
                 (Chat.mount (Chat.initial "session-1730000000000" ∅))) in
  Chat.st_sessionStorage st !! "apiKey-openai" = Some "sk-test".
Proof.
  intros st.
  pose proof (key_field_is_saved
                (Chat.setProvider Chat.openai
                   (Chat.mount (Chat.initial "session-1730000000000" ∅)))) as (_ & _ & H).
  apply (H "sk-test"); [|reflexivity].
  intros Hk. discriminate Hk.
Defined.

(** X19: a key typed into the field is saved for the current provider
    and for no other: the slots of the other providers keep what they
    had.  Emptying the field saves nothing and removes nothing, so the key
    saved before is still there. *)
Theorem typing_a_key_saves_it_for_the_current_provider st k :
  let st' := Chat.setApiKey k st in
  Chat.st_apiKey st' = k
  ∧ Chat.st_provider st' = Chat.st_provider st
  ∧ (∀ q, q ≠ Chat.st_provider st →
       Chat.st_sessionStorage st' !! Chat.key_slot q
       = Chat.st_sessionStorage st !! Chat.key_slot q)
  ∧ (falsy k = false → k ≠ Chat.st_apiKey st →
     Chat.st_sessionStorage st' !! Chat.key_slot (Chat.st_provider st) = Some k)
  ∧ (falsy k = true → Chat.st_sessionStorage st' = Chat.st_sessionStorage st).
Proof.
  intros st'. subst st'. unfold Chat.setApiKey.
  destruct (decide (k = Chat.st_apiKey st)) as [->|Hne].
  { repeat split; try done. }
  unfold Chat.commit. simpl. unfold Chat.effect_save. simpl.
  destruct (falsy k) eqn:Hk; simpl.
  - repeat split; try done.
  - repeat split; try done.
    + intros q Hq. rewrite lookup_insert_ne; [done|].
      intros Heq. by apply key_slot_inj in Heq.
    + intros _ _. by rewrite lookup_insert_eq.
Qed.

Lemma typing_a_key_saves_it_for_the_current_provider_witness :
  let st := {| Chat.st_message := EmptyString; Chat.st_provider := Chat.openai;
               Chat.st_apiKey := "sk-old"; Chat.st_sessionId := "s1";
               Chat.st_isPending := false;
               Chat.st_sessionStorage := {["apiKey-openai" := "sk-old"]} |} in
  Chat.st_sessionStorage (Chat.setApiKey "sk-new" st) !! "apiKey-openai" = Some "sk-new"
  ∧ Chat.st_sessionStorage (Chat.setApiKey EmptyString st) !! "apiKey-openai"
    = Some "sk-old".
Proof.
  intros st. split.
  - destruct (typing_a_key_saves_it_for_the_current_provider st "sk-new")
      as (_ & _ & _ & H & _).
    apply H; [reflexivity|discriminate].
  - destruct (typing_a_key_saves_it_for_the_current_provider st EmptyString)
      as (_ & _ & _ & _ & H).
    rewrite (H eq_refl). reflexivity.
Defined.

(** X20: switching to a provider that has a saved key puts that key in
    the field and leaves it saved; the slots of the other providers are not
    touched. *)
Theorem switch_loads_saved_key st p s :
  p ≠ Chat.st_provider st →
  Chat.st_sessionStorage st !! Chat.key_slot p = Some s → falsy s = false →
  let st' := Chat.setProvider p st in
  Chat.st_provider st' = p
  ∧ Chat.st_apiKey st' = s
  ∧ Chat.st_sessionStorage st' !! Chat.key_slot p = Some s
  ∧ (∀ q, q ≠ p →
       Chat.st_sessionStorage st' !! Chat.key_slot q
       = Chat.st_sessionStorage st !! Chat.key_slot q).
Proof.
  intros Hp Hs Hne st'. subst st'. unfold Chat.setProvider.
  rewrite decide_False by done.
  split; [apply commit_provider|].
  split; [|split].
  - unfold Chat.commit, Chat.effect_load. simpl. rewrite Hs, Hne.
    destruct (decide (s = Chat.st_apiKey st)) as [->|Hdiff].
    + by destruct (effect_save_fields (Chat.with_provider p st)) as (_ & -> & _).
    + by destruct (effect_save_fields
                     (Chat.with_apiKey s (Chat.effect_save (Chat.with_provider p st))))
        as (_ & -> & _).
  - unfold Chat.commit, Chat.effect_load. simpl. rewrite Hs, Hne.
    destruct (decide (s = Chat.st_apiKey st)) as [->|Hdiff].
    + unfold Chat.effect_save. simpl. rewrite Hne. simpl. by rewrite lookup_insert_eq.
    + unfold Chat.effect_save at 1. simpl. rewrite Hne. simpl.
      destruct (effect_save_fields (Chat.with_provider p st)) as (-> & _).
      simpl. by rewrite lookup_insert_eq.
  - intros q Hq. rewrite commit_other_slots; [done|]. simpl.
    intros Heq. by apply key_slot_inj in Heq.
Qed.

Lemma switch_loads_saved_key_witness :
  let st := {| Chat.st_message := EmptyString; Chat.st_provider := Chat.openai;
               Chat.st_apiKey := "sk-openai"; Chat.st_sessionId := "s1";
               Chat.st_isPending := false;
               Chat.st_sessionStorage :=
                 {["apiKey-openai" := "sk-openai"; "apiKey-deepseek" := "sk-deepseek"]} |} in
  Chat.st_apiKey (Chat.setProvider Chat.deepseek st) = "sk-deepseek"
  ∧ Chat.st_sessionStorage (Chat.setProvider Chat.deepseek st) !! "apiKey-openai"
    = Some "sk-openai".
Proof.
  intros st.
  destruct (switch_loads_saved_key st Chat.deepseek "sk-deepseek")
    as (_ & Hkey & _ & Hother).
  - discriminate.
  - reflexivity.
  - reflexivity.
  - split; [exact Hkey|].
    transitivity (Chat.st_sessionStorage st !! Chat.key_slot Chat.openai).
    + apply (Hother Chat.openai). discriminate.
    + reflexivity.
Defined.

(** X21: switching to a provider that has no saved key leaves the key of
    the previous provider in the field and saves it under the new
    provider's name; a message sent then to "openai" or "deepseek" carries
    that key. *)
Theorem switch_without_saved_key_carries_key_over st p :
  p ≠ Chat.st_provider st →
  Chat.effect_load (Chat.with_provider p st) = None →
  let st' := Chat.setProvider p st in
  Chat.st_provider st' = p
  ∧ Chat.st_apiKey st' = Chat.st_apiKey st
  ∧ (falsy (Chat.st_apiKey st) = false →
     Chat.st_sessionStorage st' !! Chat.key_slot p = Some (Chat.st_apiKey st))
  ∧ (∀ chatRequest, p ≠ Chat.puter →
       Chat.handleSendMessage st' = Chat.Mutate chatRequest →
       req_provider chatRequest = Chat.provider_name p
       ∧ req_apiKey chatRequest = Some (Chat.st_apiKey st)).
Proof.
  intros Hp Hload st'. subst st'. unfold Chat.setProvider.
  rewrite decide_False by done.
  assert (Hcommit : Chat.commit true false (Chat.with_provider p st)
                    = Chat.effect_save (Chat.with_provider p st)).
  { unfold Chat.commit. by rewrite Hload. }
  rewrite Hcommit.
  destruct (effect_save_fields (Chat.with_provider p st))
    as (Hprov & Hkey & Hmsg & Hsid & Hpend).
  simpl in Hprov, Hkey, Hmsg, Hsid, Hpend.
  split; [done|]. split; [done|]. split.
  - intros Hne. unfold Chat.effect_save. simpl. rewrite Hne. simpl.
    by rewrite lookup_insert_eq.
  - intros chatRequest Hputer. unfold Chat.handleSendMessage.
    rewrite Hprov, Hkey, Hmsg, Hsid, Hpend.
    destruct (_ || _); [done|]. destruct (_ && _); [done|].
    intros [= <-]. simpl. by rewrite decide_False.
Qed.

Lemma switch_without_saved_key_carries_key_over_witness :
  let st := {| Chat.st_message := "hello"; Chat.st_provider := Chat.openai;
               Chat.st_apiKey := "sk-openai"; Chat.st_sessionId := "s1";
               Chat.st_isPending := false;
               Chat.st_sessionStorage := {["apiKey-openai" := "sk-openai"]} |} in
  Chat.handleSendMessage (Chat.setProvider Chat.deepseek st)
  = Chat.Mutate (mkChatRequest "hello" "deepseek" "s1" (Some "sk-openai"))
  ∧ Chat.st_sessionStorage (Chat.setProvider Chat.deepseek st) !! "apiKey-deepseek"
    = Some "sk-openai".
Proof.
  intros st.
  destruct (switch_without_saved_key_carries_key_over st Chat.deepseek)
    as (_ & _ & Hsaved & _).
  - discriminate.
  - reflexivity.
  - split; [reflexivity|]. apply Hsaved. reflexivity.
Defined.

(** ** The chat page: clearing *)

(** X22: a confirmed Clear issues one request, [DELETE
    /api/messages/<session of the page>], which the clear route answers
    with success and after which the session is empty on the server; a
    Clear that is not confirmed issues nothing. *)
Theorem clear_chat_empties_server_session env st w :
  plain_segment (Chat.st_sessionId st) = true →
  Chat.handleClearChat false st = []
  ∧ ∃ w',
      deliver env (Chat.handleClearChat true st) w
      = (w', inr [Some (res_json SuccessJson)])
      ∧ read (storage w') (Chat.st_sessionId st) = []
      ∧ (∀ other, other ≠ Chat.st_sessionId st →
           read (storage w') other = read (storage w) other).
Proof.
  intros Hsid. split; [done|].
  unfold Chat.handleClearChat, Chat.clearMutationFn, deliver, serve.
  rewrite (dispatch_delete_messages _ _ _ Hsid).
  eexists. split; [reflexivity|]. simpl.
  split; [apply read_clear|]. intros other Hne. by apply read_clear_other.
Qed.

Lemma clear_chat_empties_server_session_witness :
  let env := env_answering (completion_of (Some "hi")) in
  let st := {| Chat.st_message := EmptyString; Chat.st_provider := Chat.openai;
               Chat.st_apiKey := "sk-test"; Chat.st_sessionId := "s1";
               Chat.st_isPending := false; Chat.st_sessionStorage := ∅ |} in
  let w := world_after (post_chat env (hello "openai") empty_world) in
  ∃ w',
    deliver env (Chat.handleClearChat true st) w = (w', inr [Some (res_json SuccessJson)])
    ∧ read (storage w') "s1" = [].
Proof.
  intros env st w.
  destruct (clear_chat_empties_server_session env st w eq_refl)
    as (_ & w' & Hrun & Hread & _).
  exists w'. split; [exact Hrun | exact Hread].
Defined.
